(** * DRTP over UDP: a shallow embedding of [application.py]

    The development follows the source file function by function:
    the header and packet codec ([create_header], [parse_header],
    [create_packet], [extract_packet]), the client side ([client_handshake],
    [client_send_file], [client_teardown], the client branch of [main]) and
    the receiver loop ([server_receive_files]).

    Python integers are unbounded, so every integer is a [Z].  A [bytes]
    object is a list of [byte].  The socket is the only collaborator that is
    not code of the program: each call of [sock.recvfrom] is modelled by its
    outcome (a datagram, or the [socket.timeout] exception), each call of
    [sock.sendto] and of [print] by an entry in an output log.  Wall-clock
    values (the text of [timestamp], the durations) are not modelled; what is
    modelled of the local variable [timestamp] is whether it is bound. *)

From Stdlib Require Import ZArith List Bool Lia String Sorted.
From Stdlib Require Import Strings.Byte.
Import ListNotations.
Open Scope Z_scope.

(** ** Python values and exceptions *)

Definition bytes := list byte.

Inductive exn : Type :=
| struct_error                 (* struct.error, raised by struct.pack / struct.unpack *)
| socket_timeout               (* socket.timeout *)
| UnboundLocalError            (* a local variable read before any assignment *)
| IndexError                   (* list index out of range *)
| Exception (msg : string).    (* raise Exception(msg) *)

Inductive result (A : Type) : Type :=
| Ok (a : A)
| Raise (e : exn).

Arguments Ok {A} a.
Arguments Raise {A} e.

Definition bind {A B : Type} (r : result A) (k : A -> result B) : result B :=
  match r with
  | Ok a => k a
  | Raise e => Raise e
  end.

Notation "x <- r ;; k" := (bind r (fun x => k))
  (at level 61, r at next level, right associativity).

(** Truth value of a Python integer used as a condition. *)
Definition truthy (z : Z) : bool := negb (z =? 0).

(** [len(b)] *)
Definition len {A : Type} (l : list A) : Z := Z.of_nat (List.length l).

(** [l[:n]] and [l[n:]] for a non-negative [n]. *)
Definition slice_to {A : Type} (n : Z) (l : list A) : list A := firstn (Z.to_nat n) l.
Definition slice_from {A : Type} (n : Z) (l : list A) : list A := skipn (Z.to_nat n) l.

(** [l[lo:hi]] for non-negative bounds. *)
Definition slice {A : Type} (lo hi : Z) (l : list A) : list A :=
  firstn (Z.to_nat (hi - lo)) (skipn (Z.to_nat lo) l).

(** [l[i]]: a negative index counts from the end, an index out of range
    raises [IndexError]. *)
Definition getitem {A : Type} (l : list A) (i : Z) : result A :=
  let j := if i <? 0 then i + len l else i in
  if j <? 0 then Raise IndexError
  else match nth_error l (Z.to_nat j) with
       | Some a => Ok a
       | None => Raise IndexError
       end.

(** [range(a, b)] *)
Definition range (a b : Z) : list Z :=
  map (fun k => a + Z.of_nat k) (seq 0 (Z.to_nat (b - a))).

(** ** Module constants *)

Definition syn_flag : Z := 4.    (* 0b0100 *)
Definition ack_flag : Z := 2.    (* 0b0010 *)
Definition fin_flag : Z := 8.    (* 0b1000 *)
Definition res_flag : Z := 0.    (* 0b0000 *)
Definition header_size : Z := 8.
Definition max_data : Z := 992.

(** ** [struct.pack("!HHHH", ...)] and [struct.unpack("!HHHH", ...)]

    Format [H] is an unsigned 16-bit integer, [!] is network byte order (big
    endian, no padding).  Packing a number outside [0, 65535] raises
    [struct.error]; unpacking a buffer whose length is not 8 raises
    [struct.error]. *)

Definition byte_of_Z (z : Z) : byte :=
  match Byte.of_N (Z.to_N (z mod 256)) with
  | Some b => b
  | None => x00
  end.

Definition Z_of_byte (b : byte) : Z := Z.of_N (Byte.to_N b).

Definition is_u16 (x : Z) : bool := (0 <=? x) && (x <=? 65535).

Definition pack_H (x : Z) : result bytes :=
  if is_u16 x then Ok [byte_of_Z (Z.shiftr x 8); byte_of_Z x]
  else Raise struct_error.

Definition unpack_H (hi lo : byte) : Z :=
  Z.lor (Z.shiftl (Z_of_byte hi) 8) (Z_of_byte lo).

Definition struct_pack_HHHH (a b c d : Z) : result bytes :=
  pa <- pack_H a ;;
  pb <- pack_H b ;;
  pc <- pack_H c ;;
  pd <- pack_H d ;;
  Ok (pa ++ pb ++ pc ++ pd).

Definition struct_unpack_HHHH (buf : bytes) : result (Z * Z * Z * Z) :=
  match buf with
  | [a1; a0; b1; b0; c1; c0; d1; d0] =>
      Ok (unpack_H a1 a0, unpack_H b1 b0, unpack_H c1 c0, unpack_H d1 d0)
  | _ => Raise struct_error
  end.

(** ** Header codec and packet assembler *)

Definition create_header (seq_num ack_num flags recv_window : Z) : result bytes :=
  struct_pack_HHHH seq_num ack_num flags recv_window.

Definition parse_header (header_bytes : bytes) : result (Z * Z * Z * Z) :=
  struct_unpack_HHHH header_bytes.

Definition create_packet (seq_num ack_num flags recv_window : Z) (data : bytes)
  : result bytes :=
  header <- create_header seq_num ack_num flags recv_window ;;
  Ok (header ++ data).

Definition extract_packet (packet : bytes) : result ((Z * Z * Z * Z) * bytes) :=
  let header := slice_to header_size packet in
  let data := slice_from header_size packet in
  h <- parse_header header ;;
  Ok (h, data).

(** ** The socket and the console

    [recv] is the outcome of one call of [sock.recvfrom]: the [bytes] object
    it returned, or the [socket.timeout] exception, which the client's
    socket raises when nothing arrives within [timeout = 0.4] seconds.  A
    run of the program is driven by the list of outcomes of its successive
    [recvfrom] calls; when the list is exhausted the program is blocked in
    [recvfrom]. *)

Inductive recv : Type :=
| Datagram (data : bytes)
| Timeout.

(** The lines of text the program prints.  The text of [timestamp] is left
    out of the lines that begin with it, and so are newline characters. *)
Inductive line : Type :=
| Text (s : string)
| PacketSent (seq base : Z)     (* "packet with seq = {seq} is sent, sliding window = {base..seq}" *)
| AckReceived (ack : Z)         (* "ACK for packet = {ack} is received" *)
| RTO                           (* "RTO occured" *)
| Retransmitting (seq : Z)      (* "retransmitting packet with seq = {seq}" *)
| PacketReceived (seq : Z)      (* "packet {seq} is recieved" *)
| SendingAck (seq : Z)          (* "sending ack for the received {seq}" *)
| OutOfOrderPacket (seq : Z)    (* "out-of-order packet {seq} is received" *)
| Error (e : exn)               (* print("Error:", e) *)
| Throughput.                   (* "The throughput is ... Mbps" *)

Inductive output : Type :=
| Send (packet : bytes)         (* sock.sendto(packet, address) *)
| Print (l : line).             (* print(...) *)

(** How a call of one of the client's functions ends: it returns, it raises,
    or it is still blocked in [recvfrom].  [rest] is what is left of the
    [recvfrom] outcomes. *)
Inductive outcome (A : Type) : Type :=
| Returns (a : A) (rest : list recv)
| Raises (e : exn) (rest : list recv)
| Waits.

Arguments Returns {A} a rest.
Arguments Raises {A} e rest.
Arguments Waits {A}.

(** ** [client_handshake] *)

Definition client_handshake (sender_window : Z) (inbox : list recv)
  : list output * outcome (option Z) :=
  match create_packet 1 0 syn_flag 0 [] with
  | Raise e => ([], Raises e inbox)
  | Ok syn_packet =>
      let log := [Send syn_packet;
                  Print (Text "Connection Establishment Phase:");
                  Print (Text "SYN packet is sent")] in
      match inbox with
      | [] => (log, Waits)
      | Timeout :: rest =>
          (log ++ [Print (Text "Timeout waiting for SYN-ACK")], Returns None rest)
      | Datagram data :: rest =>
          match extract_packet data with
          | Raise e => (log, Raises e rest)
          | Ok ((seq, ack, flags, recv_window), _) =>
              if truthy (Z.land flags syn_flag) && truthy (Z.land flags ack_flag) then
                let log := log ++ [Print (Text "SYN-ACK packet is received")] in
                match create_packet 2 (seq + 1) ack_flag 0 [] with
                | Raise e => (log, Raises e rest)
                | Ok ack_packet =>
                    (log ++ [Send ack_packet;
                             Print (Text "ACK packet is sent");
                             Print (Text "Connection established")],
                     Returns (Some (Z.min sender_window recv_window)) rest)
                end
              else (log, Raises (Exception "Expected SYN-ACK, wrong") rest)
          end
      end
  end.

(** ** [client_send_file]

    The local variables of the loop.  [timestamp] is assigned only in the
    inner sending loop (line 219); [c_timestamp] says whether it is bound.
    [c_log] collects what the function has sent and printed. *)

Record sender : Type := mkSender {
  base : Z;
  next_seq : Z;
  c_timestamp : bool;
  c_log : list output
}.

Definition total_chunks_of (file_data : bytes) : Z :=
  (len file_data + max_data - 1) / max_data.

(** The loop that creates all the packets (lines 207-210), for
    [i = start, start+1, ...], [n] times. *)
Fixpoint create_packets (file_data : bytes) (start : Z) (n : nat) : result (list bytes) :=
  match n with
  | O => Ok []
  | S n' =>
      let chunk := slice (start * max_data) ((start + 1) * max_data) file_data in
      packet <- create_packet (start + 1) 0 0 0 chunk ;;
      packets <- create_packets file_data (start + 1) n' ;;
      Ok (packet :: packets)
  end.

Section SenderLoop.

Variable packets : list bytes.
Variable total_chunks : Z.
Variable window_size : Z.

(** The condition of the inner [while] (line 217). *)
Definition window_open (st : sender) : bool :=
  (next_seq st <? base st + window_size) && (next_seq st <=? total_chunks).

(** One pass through the body of the inner [while] (lines 218-221). *)
Definition send_next (st : sender) : sender * option exn :=
  match getitem packets (next_seq st - 1) with
  | Raise e => (st, Some e)
  | Ok packet =>
      (mkSender (base st) (next_seq st + 1) true
         (c_log st ++ [Send packet; Print (PacketSent (next_seq st) (base st))]),
       None)
  end.

(** The inner [while], unrolled at most [fuel] times. *)
Fixpoint send_window (fuel : nat) (st : sender) : sender * option exn :=
  match fuel with
  | O => (st, None)
  | S fuel' =>
      if window_open st then
        match send_next st with
        | (st', None) => send_window fuel' st'
        | stopped => stopped
        end
      else (st, None)
  end.

(** The number of passes the inner [while] can make from [st]: every pass
    adds one to [next_seq] and leaves [base] alone. *)
Definition window_room (st : sender) : nat :=
  Z.to_nat (Z.min (base st + window_size) (total_chunks + 1) - next_seq st).

Definition send_phase (st : sender) : sender * option exn :=
  send_window (window_room st) st.

(** The [for] loop of the timeout handler (lines 234-236). *)
Fixpoint retransmit (todo : list Z) (st : sender) : sender * option exn :=
  match todo with
  | [] => (st, None)
  | i :: todo' =>
      match getitem packets (i - 1) with
      | Raise e => (st, Some e)
      | Ok packet =>
          retransmit todo'
            (mkSender (base st) (next_seq st) (c_timestamp st)
               (c_log st ++ [Send packet; Print (Retransmitting i)]))
      end
  end.

Definition log_line (st : sender) (l : line) : sender :=
  mkSender (base st) (next_seq st) (c_timestamp st) (c_log st ++ [Print l]).

(** The [try] statement of the loop (lines 223-236) for one outcome of
    [recvfrom].  Only [socket.timeout] is handled; any other exception
    leaves the function.  Both [print]s that open with [timestamp] raise
    [UnboundLocalError] while it is unbound. *)
Definition receive_phase (st : sender) (ev : recv) : sender * option exn :=
  match ev with
  | Datagram data =>
      match extract_packet data with
      | Raise e => (st, Some e)
      | Ok ((seq, ack, flags, recv_window), _) =>
          if truthy (Z.land flags ack_flag) then
            if c_timestamp st then
              let st1 := log_line st (AckReceived ack) in
              if base st1 <=? ack
              then (mkSender (ack + 1) (next_seq st1) (c_timestamp st1) (c_log st1), None)
              else (st1, None)
            else (st, Some UnboundLocalError)
          else (st, None)
      end
  | Timeout =>
      if c_timestamp st then
        let st1 := log_line st RTO in
        retransmit (range (base st1) (next_seq st1)) st1
      else (st, Some UnboundLocalError)
  end.

(** One pass through the body of the outer [while]: the state at its
    head, the state after the sending loop, and the outcome of [recvfrom]
    it then handled. *)
Record pass : Type := mkPass {
  at_head : sender;
  after_send : sender;
  received : recv
}.

Inductive ending : Type :=
| Finished (rest : list recv)            (* [base <= total_chunks] is false *)
| Crashed (e : exn) (rest : list recv)   (* an exception left the loop *)
| Blocked.                               (* waiting in [recvfrom] *)

(** The outer [while] (lines 215-236): the passes made, the state in which
    the loop was left, and how. *)
Fixpoint sender_loop (inbox : list recv) (st : sender)
  : list pass * sender * ending :=
  if base st <=? total_chunks then
    match send_phase st with
    | (st1, Some e) => ([], st1, Crashed e inbox)
    | (st1, None) =>
        match inbox with
        | [] => ([], st1, Blocked)
        | ev :: rest =>
            match receive_phase st1 ev with
            | (st2, Some e) => ([mkPass st st1 ev], st2, Crashed e rest)
            | (st2, None) =>
                let '(passes, final, how) := sender_loop rest st2 in
                (mkPass st st1 ev :: passes, final, how)
            end
        end
    end
  else ([], st, Finished inbox).

End SenderLoop.

Definition sender_init : sender := mkSender 1 1 false [Print (Text "Data Transfer:")].

(** The run of the loop of [client_send_file] on [file_data]. *)
Definition send_file_run (file_data : bytes) (window_size : Z) (inbox : list recv)
  : result (list pass * sender * ending) :=
  let total_chunks := total_chunks_of file_data in
  packets <- create_packets file_data 0 (Z.to_nat total_chunks) ;;
  Ok (sender_loop packets total_chunks window_size inbox sender_init).

(** [client_send_file]; of the pair it returns, [len(file_data)] is kept. *)
Definition client_send_file (file_data : bytes) (window_size : Z) (inbox : list recv)
  : list output * outcome Z :=
  match send_file_run file_data window_size inbox with
  | Raise e => ([], Raises e inbox)
  | Ok (_, final, Finished rest) =>
      (c_log final ++ [Print (Text "DATA finished"); Print (Text "Connection Teardown: ")],
       Returns (len file_data) rest)
  | Ok (_, final, Crashed e rest) => (c_log final, Raises e rest)
  | Ok (_, final, Blocked) => (c_log final, Waits)
  end.

(** ** [client_teardown] *)

Definition client_teardown (inbox : list recv) : list output * outcome unit :=
  match create_packet 0 0 fin_flag 0 [] with
  | Raise e => ([], Raises e inbox)
  | Ok fin_packet =>
      let log := [Send fin_packet; Print (Text "FIN packet is sent")] in
      match inbox with
      | [] => (log, Waits)
      | Timeout :: rest =>
          (log ++ [Print (Text "Timeout waiting for FIN-ACK")], Returns tt rest)
      | Datagram data :: rest =>
          match extract_packet data with
          | Raise e => (log, Raises e rest)
          | Ok ((seq, ack, flags, rwnd), _) =>
              if truthy (Z.land flags ack_flag) && truthy (Z.land flags fin_flag)
              then (log ++ [Print (Text "FIN ACK packet is received")], Returns tt rest)
              else (log, Returns tt rest)
          end
      end
  end.

(** ** The client branch of [main]

    [window] is [args.window] and [file_data] the content of [args.file].
    The throughput computed after the teardown is a floating-point value
    that is never printed; it is left out. *)

Definition client_main (window : Z) (file_data : bytes) (inbox : list recv)
  : list output * outcome unit :=
  match client_handshake window inbox with
  | (log, Raises e rest) => (log, Raises e rest)
  | (log, Waits) => (log, Waits)
  | (log, Returns None rest) =>
      (log ++ [Print (Text "Handshake failed")], Returns tt rest)
  | (log, Returns (Some actual_window) rest) =>
      let log := log ++ [Print (Text "")] in
      match client_send_file file_data actual_window rest with
      | (log1, Raises e rest1) => (log ++ log1, Raises e rest1)
      | (log1, Waits) => (log ++ log1, Waits)
      | (log1, Returns total_bytes rest1) =>
          match client_teardown rest1 with
          | (log2, Raises e rest2) => (log ++ log1 ++ log2, Raises e rest2)
          | (log2, Waits) => (log ++ log1 ++ log2, Waits)
          | (log2, Returns _ rest2) =>
              (log ++ log1 ++ log2 ++ [Print (Text "Connection closes")],
               Returns tt rest2)
          end
      end
  end.

(** ** [server_receive_files]

    The local variables of the loop.  [timestamp] is assigned only in the
    in-order branch (line 367); [s_timestamp] says whether it is bound.
    [f] is what has been written to the output file, [s_log] what the
    function has sent and printed. *)

Record receiver : Type := mkReceiver {
  expected_seq : Z;
  total_received : Z;
  discard_once : bool;
  s_timestamp : bool;
  f : bytes;
  s_log : list output
}.

(** Truth value of [discard_seq], which is [None] or an integer. *)
Definition configured (discard_seq : option Z) : bool :=
  match discard_seq with
  | Some k => truthy k
  | None => false
  end.

(** [seq == discard_seq] *)
Definition is_target (discard_seq : option Z) (seq : Z) : bool :=
  match discard_seq with
  | Some k => seq =? k
  | None => false
  end.

Definition receiver_init (discard_seq : option Z) : receiver :=
  mkReceiver 1 0 (configured discard_seq) false [] [].

(** The path one pass through the body of the [while True] takes. *)
Inductive branch : Type :=
| FinReceived          (* lines 355-360, ends with [break] *)
| Discarded            (* lines 362-364, ends with [continue] *)
| InOrder              (* lines 366-374 *)
| OutOfOrder           (* lines 376-378 *)
| Failed (e : exn).    (* the handler of lines 380-382, ends with [break] *)

Definition leaves_loop (b : branch) : bool :=
  match b with
  | FinReceived | Failed _ => true
  | Discarded | InOrder | OutOfOrder => false
  end.

Definition s_print (st : receiver) (l : line) : receiver :=
  mkReceiver (expected_seq st) (total_received st) (discard_once st) (s_timestamp st)
    (f st) (s_log st ++ [Print l]).

Definition s_send (st : receiver) (packet : bytes) : receiver :=
  mkReceiver (expected_seq st) (total_received st) (discard_once st) (s_timestamp st)
    (f st) (s_log st ++ [Send packet]).

(** The handler [except Exception as e: print("Error:", e); break]. *)
Definition handler (st : receiver) (e : exn) : branch * receiver :=
  (Failed e, s_print st (Error e)).

(** One pass through the body of the [while True] (lines 350-382) for one
    outcome of [recvfrom]. *)
Definition receive_step (discard_seq : option Z) (st : receiver) (ev : recv)
  : branch * receiver :=
  match ev with
  | Timeout => handler st socket_timeout
  | Datagram data =>
      match extract_packet data with
      | Raise e => handler st e
      | Ok ((seq, ack, flags, rwnd), payload) =>
          if truthy (Z.land flags fin_flag) then
            let st1 := s_print st (Text "FIN packet is received") in
            match create_packet 0 0 (Z.lor fin_flag ack_flag) 0 [] with
            | Raise e => handler st1 e
            | Ok fin_ack =>
                (FinReceived, s_print (s_send st1 fin_ack) (Text "FIN ACK packet is sent"))
            end
          else if configured discard_seq && is_target discard_seq seq && discard_once st then
            (Discarded,
             mkReceiver (expected_seq st) (total_received st) false (s_timestamp st)
               (f st) (s_log st))
          else if seq =? expected_seq st then
            let st1 :=
              mkReceiver (expected_seq st) (total_received st) (discard_once st) true
                (f st ++ payload) (s_log st ++ [Print (PacketReceived seq)]) in
            match create_packet 0 seq ack_flag 0 [] with
            | Raise e => handler st1 e
            | Ok ack_packet =>
                let st2 := s_print (s_send st1 ack_packet) (SendingAck seq) in
                (InOrder,
                 mkReceiver (expected_seq st2 + 1) (total_received st2 + len payload)
                   (discard_once st2) (s_timestamp st2) (f st2) (s_log st2))
            end
          else if s_timestamp st then
            (OutOfOrder, s_print st (OutOfOrderPacket seq))
          else handler st UnboundLocalError
      end
  end.

(** One pass of the loop as it is observed: the state before, the outcome of
    [recvfrom], the branch taken, the state after. *)
Record step : Type := mkStep {
  before : receiver;
  arrived : recv;
  taken : branch;
  after : receiver
}.

(** The [while True] loop: the passes made and the state in which the loop
    was left or is waiting. *)
Fixpoint receive_loop (discard_seq : option Z) (inbox : list recv) (st : receiver)
  : list step * receiver :=
  match inbox with
  | [] => ([], st)
  | ev :: rest =>
      let '(b, st') := receive_step discard_seq st ev in
      if leaves_loop b then ([mkStep st ev b st'], st')
      else
        let '(steps, final) := receive_loop discard_seq rest st' in
        (mkStep st ev b st' :: steps, final)
  end.

(** Whether the loop was left; otherwise it is blocked in [recvfrom]. *)
Definition left_loop (steps : list step) : bool :=
  match rev steps with
  | [] => false
  | s :: _ => leaves_loop (taken s)
  end.

(** [server_receive_files]: the steps of its loop and its final state.  The
    two lines printed after the loop are in the log when the loop was left;
    the value of the throughput is a floating-point number over wall-clock
    time and is not modelled. *)
Definition server_receive_files (discard_seq : option Z) (inbox : list recv)
  : list step * receiver :=
  let '(steps, final) := receive_loop discard_seq inbox (receiver_init discard_seq) in
  if left_loop steps
  then (steps, s_print (s_print final Throughput) (Text "Connection Closes"))
  else (steps, final).

(** What [extract_packet] makes of an outcome of [recvfrom], when it is a
    datagram that carries a header. *)
Definition header_of (ev : recv) : option (Z * Z * Z * Z) :=
  match ev with
  | Datagram data =>
      match extract_packet data with
      | Ok (h, _) => Some h
      | Raise _ => None
      end
  | Timeout => None
  end.

Definition seq_of (h : Z * Z * Z * Z) : Z := let '(seq, _, _, _) := h in seq.
Definition ack_of (h : Z * Z * Z * Z) : Z := let '(_, ack, _, _) := h in ack.
Definition flags_of (h : Z * Z * Z * Z) : Z := let '(_, _, flags, _) := h in flags.
Definition window_of (h : Z * Z * Z * Z) : Z := let '(_, _, _, w) := h in w.

(** The packets sent, in a log. *)
Definition sent_packets (log : list output) : list bytes :=
  flat_map (fun o => match o with Send p => [p] | Print _ => [] end) log.

(** ** Notions used in the statements *)

(** The 8 bytes of a header whose four fields are in range. *)
Definition header_bytes_of (s a fl w : Z) : bytes :=
  [byte_of_Z (Z.shiftr s 8); byte_of_Z s; byte_of_Z (Z.shiftr a 8); byte_of_Z a;
   byte_of_Z (Z.shiftr fl 8); byte_of_Z fl; byte_of_Z (Z.shiftr w 8); byte_of_Z w].

(** The SYN of the handshake: [create_packet(1, 0, syn_flag, 0)]. *)
Definition syn_packet_bytes : bytes := [x00; x01; x00; x00; x00; x04; x00; x00].

(** The window invariant of the sender. *)
Definition window_inv (window_size : Z) (st : sender) : Prop :=
  base st <= next_seq st <= base st + window_size.

(** The acknowledgement number of an ACK-flagged datagram. *)
Definition acked (ev : recv) : option Z :=
  match header_of ev with
  | Some h => if truthy (Z.land (flags_of h) ack_flag) then Some (ack_of h) else None
  | None => None
  end.

(** Every acknowledgement received is for a packet already sent. *)
Definition acks_in_flight (passes : list pass) : Prop :=
  Forall (fun p => forall k, acked (received p) = Some k -> k < next_seq (after_send p))
         passes.

(** The states a run of the sender loop went through, in order: for each
    pass the state at its head and the state after its sending loop, then
    the state in which the loop was left. *)
Definition visited (run : list pass * sender * ending) : list sender :=
  let '(passes, final, _) := run in
  flat_map (fun p => [at_head p; after_send p]) passes ++ [final].

(** Whether a pass of the receiver loop took the discard branch. *)
Definition is_discarded (b : branch) : bool :=
  match b with
  | Discarded => true
  | _ => false
  end.

(** A datagram that carries a header without the FIN flag and with sequence
    number [k]. *)
Definition hits (k : Z) (ev : recv) : bool :=
  match header_of ev with
  | Some h => negb (truthy (Z.land (flags_of h) fin_flag)) && (seq_of h =? k)
  | None => false
  end.

(** The discard flag cleared, everything else as it was. *)
Definition disarmed (st : receiver) : receiver :=
  mkReceiver (expected_seq st) (total_received st) false (s_timestamp st) (f st) (s_log st).

(** ** Sample packets and runs

    Data packets 1, 2 and 3 with one byte of payload each, the ACKs for
    packets 1 and 2, and the passes of a receiver with [discard_seq = 2]. *)

Definition data_packet_1 : bytes := [x00; x01; x00; x00; x00; x00; x00; x00; x61].
Definition data_packet_2 : bytes := [x00; x02; x00; x00; x00; x00; x00; x00; x62].
Definition data_packet_3 : bytes := [x00; x03; x00; x00; x00; x00; x00; x00; x63].
Definition ack_packet_1 : bytes := [x00; x00; x00; x01; x00; x02; x00; x00].
Definition ack_packet_2 : bytes := [x00; x00; x00; x02; x00; x02; x00; x00].

Definition step_dropped_2 : step :=
  mkStep (receiver_init (Some 2)) (Datagram data_packet_2) Discarded
    (disarmed (receiver_init (Some 2))).

Definition step_accepted_1 : step :=
  mkStep (disarmed (receiver_init (Some 2))) (Datagram data_packet_1) InOrder
    (mkReceiver 2 1 false true [x61]
       [Print (PacketReceived 1); Send ack_packet_1; Print (SendingAck 1)]).

Definition step_accepted_2 : step :=
  mkStep (after step_accepted_1) (Datagram data_packet_2) InOrder
    (mkReceiver 3 2 false true [x61; x62]
       [Print (PacketReceived 1); Send ack_packet_1; Print (SendingAck 1);
        Print (PacketReceived 2); Send ack_packet_2; Print (SendingAck 2)]).

Definition step_refused_3 : step :=
  mkStep (disarmed (receiver_init (Some 2))) (Datagram data_packet_3)
    (Failed UnboundLocalError)
    (s_print (disarmed (receiver_init (Some 2))) (Error UnboundLocalError)).

(** Closes the goals left once a pass of the receiver loop has been
    evaluated. *)
Ltac settle_step :=
  cbn; repeat split; intros;
  try reflexivity; try assumption; try discriminate; try congruence;
  try (destruct (discard_once _); reflexivity).

(** ** [server_handshake] and the server branch of [main]

    The server never sets a timeout on its socket, so each [recvfrom] of the
    handshake returns a datagram together with the address it came from.
    What the server sends is logged with the address it is sent to. *)

Section Server.

Variable address : Type.

Inductive reply : Type :=
| SendTo (packet : bytes) (addr : address)   (* sock.sendto(packet, addr) *)
| Say (l : line).                            (* print(...) *)

(** How [server_handshake] ends: it returns the address of the client, an
    exception leaves it (nothing in it is handled), or it is still blocked in
    [recvfrom]. *)
Inductive listening : Type :=
| Established (addr : address) (rest : list (bytes * address))
| Aborted (e : exn) (rest : list (bytes * address))
| Listening.

(** The [while True] of [server_handshake] (lines 299-313). *)
Fixpoint server_handshake (inbox : list (bytes * address)) : list reply * listening :=
  match inbox with
  | [] => ([], Listening)
  | (data, addr) :: rest =>
      match extract_packet data with
      | Raise e => ([], Aborted e rest)
      | Ok ((seq, ack, flags, rwnd), _) =>
          if truthy (Z.land flags syn_flag) then
            match create_packet 0 (seq + 1) (Z.lor syn_flag ack_flag) 15 [] with
            | Raise e => ([Say (Text "SYN packet is received")], Aborted e rest)
            | Ok synack =>
                let '(log, how) := server_handshake rest in
                (Say (Text "SYN packet is received") :: SendTo synack addr
                   :: Say (Text "SYN-ACK packet is sent") :: log,
                 how)
            end
          else if truthy (Z.land flags ack_flag) then
            ([Say (Text "ACK packet is received"); Say (Text "Connection established")],
             Established addr rest)
          else server_handshake rest
      end
  end.

(** An entry of the log of [server_receive_files]: all it sends goes to the
    address [server_handshake] returned. *)
Definition addressed (addr : address) (o : output) : reply :=
  match o with
  | Send packet => SendTo packet addr
  | Print l => Say l
  end.

(** What became of a run of the server. *)
Inductive session : Type :=
| NoSession (e : option exn)     (* the handshake raised [e], or is still listening *)
| Session (addr : address) (steps : list step) (final : receiver).

(** The server branch of [main] (lines 455-462).  [discard] is
    [args.discard], [None] when the option is absent.  The name of the output
    file is made from the wall-clock time and is not modelled. *)
Definition server_main (discard : option Z) (inbox : list (bytes * address))
  : list reply * session :=
  match server_handshake inbox with
  | (log, Aborted e _) => (log, NoSession (Some e))
  | (log, Listening) => (log, NoSession None)
  | (log, Established client_addr rest) =>
      let discard_seq := if configured discard then discard else None in
      let '(steps, final) :=
        server_receive_files discard_seq (map (fun da => Datagram (fst da)) rest) in
      (log ++ map (addressed client_addr) (s_log final), Session client_addr steps final)
  end.

End Server.

Arguments SendTo {address} packet addr.
Arguments Say {address} l.
Arguments Established {address} addr rest.
Arguments Aborted {address} e rest.
Arguments Listening {address}.
Arguments server_handshake {address} inbox.
Arguments addressed {address} addr o.
Arguments NoSession {address} e.
Arguments Session {address} addr steps final.
Arguments server_main {address} discard inbox.

(** ** Packets named in the statements *)

(** The FIN of the teardown, [create_packet(0, 0, fin_flag, 0)], and the
    FIN-ACK that answers it. *)
Definition fin_packet_bytes : bytes := [x00; x00; x00; x00; x00; x08; x00; x00].
Definition fin_ack_bytes : bytes := [x00; x00; x00; x00; x00; x0a; x00; x00].

(** The ACK for packet [k], [create_packet(0, k, ack_flag, 0)]. *)
Definition ack_bytes (k : Z) : bytes := header_bytes_of 0 k ack_flag 0.

(** The SYN-ACK for a SYN with sequence number [seq]. *)
Definition syn_ack_bytes (seq : Z) : bytes :=
  header_bytes_of 0 (seq + 1) (Z.lor syn_flag ack_flag) 15.

(** The third packet of the handshake, for a SYN-ACK with sequence number
    [seq]. *)
Definition handshake_ack_bytes (seq : Z) : bytes := header_bytes_of 2 (seq + 1) ack_flag 0.

(** Chunk number [i] (from 0) of a file, [file_data[i*max_data : (i+1)*max_data]]. *)
Definition chunk (file_data : bytes) (i : Z) : bytes :=
  slice (i * max_data) ((i + 1) * max_data) file_data.

(** The data packet for chunk [i] (from 0) of a file. *)
Definition data_packet (file_data : bytes) (i : Z) : bytes :=
  header_bytes_of (i + 1) 0 0 0 ++ chunk file_data i.

(** The payloads the receiver wrote, pass by pass. *)
Definition written (steps : list step) : list bytes :=
  flat_map (fun s =>
              match taken s, arrived s with
              | InOrder, Datagram data => [slice_from header_size data]
              | _, _ => []
              end) steps.

(** The number of passes that took the in-order branch. *)
Definition accepted (steps : list step) : Z :=
  len (filter (fun s => match taken s with InOrder => true | _ => false end) steps).

(** The packets in a log of the server, each with the address it was sent
    to. *)
Definition sends {address : Type} (log : list (reply address)) : list (bytes * address) :=
  flat_map (fun r => match r with SendTo packet addr => [(packet, addr)] | Say _ => [] end)
           log.

(** A datagram the handshake of the server answers or ignores without
    raising: one that carries a header and is either a SYN with a sequence
    number below 65535 or has neither the SYN nor the ACK flag. *)
Definition before_ack (data : bytes) : Prop :=
  exists h,
    header_of (Datagram data) = Some h /\
    ((Z.land (flags_of h) syn_flag <> 0 /\ seq_of h < 65535) \/
     (Z.land (flags_of h) syn_flag = 0 /\ Z.land (flags_of h) ack_flag = 0)).

(** The SYN-ACKs owed to a list of datagrams: one for each SYN, to its
    sender. *)
Definition syn_replies {address : Type} (inbox : list (bytes * address))
  : list (bytes * address) :=
  flat_map (fun da =>
              match header_of (Datagram (fst da)) with
              | Some h =>
                  if truthy (Z.land (flags_of h) syn_flag)
                  then [(syn_ack_bytes (seq_of h), snd da)]
                  else []
              | None => []
              end) inbox.

(** Whether a pass took the FIN branch. *)
Definition fin_received (steps : list step) : bool :=
  existsb (fun s => match taken s with FinReceived => true | _ => false end) steps.

(** No [recvfrom] of the run timed out. *)
Definition no_timeout (inbox : list recv) : Prop :=
  Forall (fun ev => ev <> Timeout) inbox.

(** * Properties *)

(** ** Bytes and 16-bit fields *)

Lemma Z_of_byte_range (b : byte) : 0 <= Z_of_byte b <= 255.
Proof.
  unfold Z_of_byte. pose proof (Byte.to_N_bounded b) as H.
  apply N.leb_le in H. apply N.leb_le in H. lia.
Qed.

Lemma Z_of_byte_of_Z (z : Z) : Z_of_byte (byte_of_Z z) = z mod 256.
Proof.
  unfold Z_of_byte, byte_of_Z.
  assert (Hr : 0 <= z mod 256 < 256) by (apply Z.mod_pos_bound; lia).
  destruct (Byte.of_N (Z.to_N (z mod 256))) as [b|] eqn:E.
  - apply Byte.to_of_N in E. rewrite E. lia.
  - apply Byte.of_N_None_iff in E. lia.
Qed.

Lemma is_u16_spec (x : Z) : is_u16 x = true <-> 0 <= x <= 65535.
Proof. unfold is_u16. rewrite andb_true_iff, !Z.leb_le. tauto. Qed.

(** Two bytes, most significant first, put together again. *)
Lemma unpack_H_bytes (x : Z) :
  0 <= x <= 65535 ->
  unpack_H (byte_of_Z (Z.shiftr x 8)) (byte_of_Z x) = x.
Proof.
  intros Hx. unfold unpack_H. rewrite !Z_of_byte_of_Z.
  rewrite (Z.shiftr_div_pow2 x 8) by lia.
  change (2 ^ 8) with 256.
  assert (Hq : 0 <= x / 256 < 256).
  { split; [apply Z.div_pos; lia | apply Z.div_lt_upper_bound; lia]. }
  rewrite (Z.mod_small (x / 256) 256) by exact Hq.
  apply Z.bits_inj'. intros n Hn.
  rewrite Z.lor_spec.
  change 256 with (2 ^ 8).
  destruct (Z.ltb_spec n 8) as [Hlt | Hge].
  - rewrite Z.shiftl_spec_low by lia.
    rewrite Z.mod_pow2_bits_low by lia. reflexivity.
  - rewrite Z.shiftl_spec_high by lia.
    rewrite Z.mod_pow2_bits_high by lia.
    rewrite orb_false_r.
    rewrite <- (Z.shiftr_div_pow2 x 8) by lia.
    rewrite Z.shiftr_spec by lia. f_equal. lia.
Qed.

(** A byte shifted left by 8 bits shares no bit with a byte. *)
Lemma land_shifted_byte (hi lo : Z) :
  0 <= lo <= 255 -> Z.land (hi * 2 ^ 8) lo = 0.
Proof.
  intros Hl. apply Z.bits_inj'. intros n Hn. rewrite Z.land_spec, Z.bits_0.
  destruct (Z.ltb_spec n 8) as [Hlt | Hge].
  - rewrite Z.mul_pow2_bits_low by lia. reflexivity.
  - rewrite (Z.bits_above_log2 lo n); [apply andb_false_r | lia | ].
    destruct (Z.eq_dec lo 0) as [E | E]; [rewrite E; simpl; lia | ].
    apply Z.log2_lt_pow2; [lia | ].
    apply Z.lt_le_trans with (2 ^ 8); [change (2 ^ 8) with 256; lia | ].
    apply Z.pow_le_mono_r; lia.
Qed.

Lemma unpack_H_value (hi lo : byte) :
  unpack_H hi lo = Z_of_byte hi * 256 + Z_of_byte lo.
Proof.
  unfold unpack_H.
  pose proof (Z_of_byte_range hi) as Hh. pose proof (Z_of_byte_range lo) as Hl.
  rewrite Z.shiftl_mul_pow2 by lia.
  rewrite <- Z.lxor_lor by (apply land_shifted_byte; exact Hl).
  symmetry. change 256 with (2 ^ 8).
  apply Z.add_nocarry_lxor. apply land_shifted_byte. exact Hl.
Qed.

Lemma unpack_H_range (hi lo : byte) : 0 <= unpack_H hi lo <= 65535.
Proof.
  rewrite unpack_H_value.
  pose proof (Z_of_byte_range hi). pose proof (Z_of_byte_range lo). lia.
Qed.

Lemma pack_H_ok (x : Z) :
  0 <= x <= 65535 -> pack_H x = Ok [byte_of_Z (Z.shiftr x 8); byte_of_Z x].
Proof.
  intros Hx. unfold pack_H.
  destruct (is_u16 x) eqn:E; [reflexivity | ].
  apply is_u16_spec in Hx. congruence.
Qed.

Lemma create_header_ok (s a fl w : Z) :
  0 <= s <= 65535 -> 0 <= a <= 65535 -> 0 <= fl <= 65535 -> 0 <= w <= 65535 ->
  create_header s a fl w = Ok (header_bytes_of s a fl w).
Proof.
  intros Hs Ha Hf Hw. unfold create_header, struct_pack_HHHH.
  rewrite (pack_H_ok s Hs), (pack_H_ok a Ha), (pack_H_ok fl Hf), (pack_H_ok w Hw).
  reflexivity.
Qed.

Lemma parse_header_bytes_of (s a fl w : Z) :
  0 <= s <= 65535 -> 0 <= a <= 65535 -> 0 <= fl <= 65535 -> 0 <= w <= 65535 ->
  parse_header (header_bytes_of s a fl w) = Ok (s, a, fl, w).
Proof.
  intros Hs Ha Hf Hw. unfold parse_header, header_bytes_of, struct_unpack_HHHH.
  rewrite !unpack_H_bytes by assumption. reflexivity.
Qed.

Lemma create_packet_ok (s a fl w : Z) (data : bytes) :
  0 <= s <= 65535 -> 0 <= a <= 65535 -> 0 <= fl <= 65535 -> 0 <= w <= 65535 ->
  create_packet s a fl w data = Ok (header_bytes_of s a fl w ++ data).
Proof.
  intros Hs Ha Hf Hw. unfold create_packet.
  rewrite create_header_ok by assumption. reflexivity.
Qed.

Lemma extract_packet_header_bytes (s a fl w : Z) (data : bytes) :
  0 <= s <= 65535 -> 0 <= a <= 65535 -> 0 <= fl <= 65535 -> 0 <= w <= 65535 ->
  extract_packet (header_bytes_of s a fl w ++ data) = Ok ((s, a, fl, w), data).
Proof.
  intros Hs Ha Hf Hw. unfold extract_packet, slice_to, slice_from, header_size.
  change (Z.to_nat 8) with 8%nat.
  change (firstn 8 (header_bytes_of s a fl w ++ data)) with (header_bytes_of s a fl w).
  change (skipn 8 (header_bytes_of s a fl w ++ data)) with data.
  rewrite parse_header_bytes_of by assumption. reflexivity.
Qed.

(** A datagram of fewer than 8 bytes has no header: [struct.unpack] raises. *)
Lemma extract_packet_short (data : bytes) :
  len data < header_size -> extract_packet data = Raise struct_error.
Proof.
  unfold extract_packet, slice_to, parse_header, len, header_size. intros H.
  change (Z.to_nat 8) with 8%nat.
  rewrite firstn_all2 by lia.
  do 8 (destruct data as [ | ? data]; [reflexivity | ]).
  simpl in H. lia.
Qed.

(** What [extract_packet] returns was read off the first 8 bytes. *)
Lemma extract_packet_fields (data : bytes) (h : Z * Z * Z * Z) (payload : bytes) :
  extract_packet data = Ok (h, payload) ->
  0 <= seq_of h <= 65535 /\ 0 <= ack_of h <= 65535 /\
  0 <= flags_of h <= 65535 /\ 0 <= window_of h <= 65535 /\
  payload = slice_from header_size data /\ header_size <= len data.
Proof.
  unfold extract_packet, slice_to, slice_from, header_size, parse_header, len.
  change (Z.to_nat 8) with 8%nat. intros H.
  do 8 (destruct data as [ | ? data]; [discriminate H | ]).
  destruct data as [ | b9 data]; simpl in H.
  - injection H as <- <-. simpl.
    repeat split; try apply unpack_H_range; lia.
  - injection H as <- <-. simpl skipn. cbv [seq_of ack_of flags_of window_of].
    repeat split; try apply unpack_H_range.
    rewrite !length_cons. lia.
Qed.

(** The SYN packet of the handshake, byte by byte. *)
Example create_packet_syn :
  create_packet 1 0 syn_flag 0 [] = Ok [x00; x01; x00; x00; x00; x04; x00; x00].
Proof. reflexivity. Qed.

Example parse_header_258 :
  parse_header [x01; x02; xff; xff; x00; x0a; x00; x0f] = Ok (258, 65535, 10, 15).
Proof. reflexivity. Qed.

(** ** Header codec and packet assembler: round trip *)

(** C4.  For fields in the range of an unsigned 16-bit integer,
    [create_header] returns a header that [parse_header] decodes to the same
    four fields, and for a payload of at most 992 bytes [create_packet]
    returns a packet that [extract_packet] splits into the same fields and
    the same payload. *)
Theorem codec_round_trip (seq_num ack_num flags recv_window : Z) :
  0 <= seq_num <= 65535 -> 0 <= ack_num <= 65535 ->
  0 <= flags <= 65535 -> 0 <= recv_window <= 65535 ->
  (exists header,
      create_header seq_num ack_num flags recv_window = Ok header /\
      parse_header header = Ok (seq_num, ack_num, flags, recv_window)) /\
  (forall P : bytes,
      0 <= len P <= max_data ->
      exists packet,
        create_packet seq_num ack_num flags recv_window P = Ok packet /\
        extract_packet packet = Ok ((seq_num, ack_num, flags, recv_window), P)).
Proof.
  intros Hs Ha Hf Hw. split.
  - exists (header_bytes_of seq_num ack_num flags recv_window). split.
    + apply create_header_ok; assumption.
    + apply parse_header_bytes_of; assumption.
  - intros P _.
    exists (header_bytes_of seq_num ack_num flags recv_window ++ P). split.
    + apply create_packet_ok; assumption.
    + apply extract_packet_header_bytes; assumption.
Qed.

Lemma codec_round_trip_witness :
  (exists header,
      create_header 7 65535 (Z.lor syn_flag ack_flag) 15 = Ok header /\
      parse_header header = Ok (7, 65535, Z.lor syn_flag ack_flag, 15)) /\
  (forall P : bytes,
      0 <= len P <= max_data ->
      exists packet,
        create_packet 7 65535 (Z.lor syn_flag ack_flag) 15 P = Ok packet /\
        extract_packet packet = Ok ((7, 65535, Z.lor syn_flag ack_flag, 15), P)).
Proof.
  apply (codec_round_trip 7 65535 (Z.lor syn_flag ack_flag) 15);
    unfold syn_flag, ack_flag; simpl; lia.
Defined.

(** ** [create_header] outside the 16-bit range *)

(** C9, as stated, fails: a field of 65536 is not reduced modulo [2^16];
    [struct.pack] raises [struct.error], while the header of the reduced
    fields exists. *)
Lemma create_header_no_truncation :
  create_header 65536 0 0 0 = Raise struct_error /\
  create_header (65536 mod 2 ^ 16) (0 mod 2 ^ 16) (0 mod 2 ^ 16) (0 mod 2 ^ 16)
    = Ok [x00; x00; x00; x00; x00; x00; x00; x00] /\
  create_header 65536 0 0 0
    <> create_header (65536 mod 2 ^ 16) (0 mod 2 ^ 16) (0 mod 2 ^ 16) (0 mod 2 ^ 16).
Proof. repeat split. discriminate. Qed.

(** C9, amended.  [create_header] returns exactly when each of the four
    fields is in [0, 65535]; what it returns is then 8 bytes long and holds
    the fields in network byte order, most significant byte first.  For any
    other integers it raises [struct.error]: nothing is masked. *)
Theorem create_header_in_range_or_raises (seq_num ack_num flags recv_window : Z) :
  match create_header seq_num ack_num flags recv_window with
  | Ok header =>
      (0 <= seq_num <= 65535 /\ 0 <= ack_num <= 65535 /\
       0 <= flags <= 65535 /\ 0 <= recv_window <= 65535) /\
      len header = 8 /\
      map Z_of_byte header =
        [seq_num / 256; seq_num mod 256; ack_num / 256; ack_num mod 256;
         flags / 256; flags mod 256; recv_window / 256; recv_window mod 256]
  | Raise e =>
      e = struct_error /\
      ~ (0 <= seq_num <= 65535 /\ 0 <= ack_num <= 65535 /\
         0 <= flags <= 65535 /\ 0 <= recv_window <= 65535)
  end.
Proof.
  assert (Hhi : forall x, 0 <= x <= 65535 ->
                          Z_of_byte (byte_of_Z (Z.shiftr x 8)) = x / 256).
  { intros x Hx. rewrite Z_of_byte_of_Z, Z.shiftr_div_pow2 by lia.
    change (2 ^ 8) with 256. apply Z.mod_small.
    split; [apply Z.div_pos; lia | apply Z.div_lt_upper_bound; lia]. }
  unfold create_header, struct_pack_HHHH, pack_H.
  destruct (is_u16 seq_num) eqn:Es; simpl;
    [apply is_u16_spec in Es | split; [reflexivity | ];
       intros [H _]; apply is_u16_spec in H; congruence].
  destruct (is_u16 ack_num) eqn:Ea; simpl;
    [apply is_u16_spec in Ea | split; [reflexivity | ];
       intros (_ & H & _); apply is_u16_spec in H; congruence].
  destruct (is_u16 flags) eqn:Ef; simpl;
    [apply is_u16_spec in Ef | split; [reflexivity | ];
       intros (_ & _ & H & _); apply is_u16_spec in H; congruence].
  destruct (is_u16 recv_window) eqn:Ew; simpl;
    [apply is_u16_spec in Ew | split; [reflexivity | ];
       intros (_ & _ & _ & H); apply is_u16_spec in H; congruence].
  split; [tauto | ]. split; [reflexivity | ].
  rewrite !Hhi by assumption. rewrite !Z_of_byte_of_Z. reflexivity.
Qed.

(** ** [client_handshake] *)

Lemma truthy_true (z : Z) : truthy z = true <-> z <> 0.
Proof.
  unfold truthy. rewrite negb_true_iff. split.
  - intros H. apply Z.eqb_neq. exact H.
  - intros H. apply Z.eqb_neq. exact H.
Qed.

(** A SYN-ACK whose sequence number is 65535: the claim C5, as stated, fails
    on it.  The reply carries both flags, but the acknowledgement number
    [seq + 1 = 65536] of the ACK that the client builds next does not fit a
    16-bit field; [create_packet] raises [struct.error] and nothing is
    returned. *)
Lemma client_handshake_seq_65535 :
  let reply := [xff; xff; x00; x00; x00; x06; x00; x0f] in
  extract_packet reply = Ok ((65535, 0, 6, 15), []) /\
  truthy (Z.land 6 syn_flag) = true /\ truthy (Z.land 6 ack_flag) = true /\
  snd (client_handshake 3 [Datagram reply]) = Raises struct_error [] /\
  snd (client_handshake 3 [Datagram reply]) <> Returns (Some (Z.min 3 15)) [].
Proof. repeat split. discriminate. Qed.

(** C5, amended.  When the reply to the SYN carries both the SYN and the ACK
    bit and its sequence number is below 65535, [client_handshake] returns
    the smaller of the requested window and the window of the reply. *)
Theorem client_handshake_negotiates_min
    (sender_window : Z) (data : bytes) (rest : list recv)
    (seq ack flags recv_window : Z) (payload : bytes) :
  extract_packet data = Ok ((seq, ack, flags, recv_window), payload) ->
  Z.land flags syn_flag <> 0 ->
  Z.land flags ack_flag <> 0 ->
  seq < 65535 ->
  snd (client_handshake sender_window (Datagram data :: rest))
  = Returns (Some (Z.min sender_window recv_window)) rest.
Proof.
  intros Hx Hsyn Hack Hseq.
  pose proof (extract_packet_fields _ _ _ Hx) as (Hs & _).
  unfold seq_of in Hs.
  unfold client_handshake.
  change (create_packet 1 0 syn_flag 0 []) with (Ok syn_packet_bytes).
  cbv iota beta zeta. rewrite Hx.
  apply truthy_true in Hsyn. apply truthy_true in Hack.
  rewrite Hsyn, Hack. cbn [andb].
  rewrite (create_packet_ok 2 (seq + 1) ack_flag 0) by (unfold ack_flag; lia).
  reflexivity.
Qed.

Lemma client_handshake_negotiates_min_witness :
  snd (client_handshake 3
         (Datagram [x00; x00; x00; x02; x00; x06; x00; x0f] :: [Timeout]))
  = Returns (Some (Z.min 3 15)) [Timeout].
Proof.
  apply (client_handshake_negotiates_min 3
           [x00; x00; x00; x02; x00; x06; x00; x0f] [Timeout] 0 2 6 15 []).
  - reflexivity.
  - unfold syn_flag; simpl; lia.
  - unfold ack_flag; simpl; lia.
  - lia.
Defined.

(** With sequence number 65535 the same reply always ends in [struct.error]. *)
Lemma client_handshake_overflow
    (sender_window : Z) (data : bytes) (rest : list recv)
    (ack flags recv_window : Z) (payload : bytes) :
  extract_packet data = Ok ((65535, ack, flags, recv_window), payload) ->
  Z.land flags syn_flag <> 0 ->
  Z.land flags ack_flag <> 0 ->
  snd (client_handshake sender_window (Datagram data :: rest))
  = Raises struct_error rest.
Proof.
  intros Hx Hsyn Hack. unfold client_handshake.
  change (create_packet 1 0 syn_flag 0 []) with (Ok syn_packet_bytes).
  cbv iota beta zeta. rewrite Hx.
  apply truthy_true in Hsyn. apply truthy_true in Hack.
  rewrite Hsyn, Hack. reflexivity.
Qed.

(** C7.  When the first [recvfrom] times out, [client_handshake] has sent
    the SYN once and returns [None]; [main] then prints "Handshake failed"
    and returns: the SYN is the only packet sent, no further [recvfrom] is
    made (the outcomes after the timeout are left as they were), and neither
    the transfer nor the teardown is entered. *)
Theorem handshake_timeout_aborts
    (window : Z) (file_data : bytes) (rest : list recv) :
  client_handshake window (Timeout :: rest)
  = ([Send syn_packet_bytes;
      Print (Text "Connection Establishment Phase:");
      Print (Text "SYN packet is sent");
      Print (Text "Timeout waiting for SYN-ACK")],
     Returns None rest) /\
  client_main window file_data (Timeout :: rest)
  = ([Send syn_packet_bytes;
      Print (Text "Connection Establishment Phase:");
      Print (Text "SYN packet is sent");
      Print (Text "Timeout waiting for SYN-ACK");
      Print (Text "Handshake failed")],
     Returns tt rest) /\
  sent_packets (fst (client_main window file_data (Timeout :: rest)))
  = [syn_packet_bytes].
Proof. repeat split. Qed.

(** ** The sender loop of [client_send_file] *)

Section SenderFacts.

Variable packets : list bytes.
Variable total_chunks : Z.
Variable window_size : Z.

Local Abbreviation is_open := (window_open total_chunks window_size).
Local Abbreviation next := (send_next packets).
Local Abbreviation sending := (send_window packets total_chunks window_size).
Local Abbreviation sent := (send_phase packets total_chunks window_size).
Local Abbreviation resend := (retransmit packets).
Local Abbreviation handled := (receive_phase packets).

Lemma window_open_spec (st : sender) :
  is_open st = true <->
  next_seq st < base st + window_size /\ next_seq st <= total_chunks.
Proof.
  unfold window_open. rewrite andb_true_iff, Z.ltb_lt, Z.leb_le. tauto.
Qed.

Lemma send_next_cases (st st' : sender) (e : option exn) :
  next st = (st', e) ->
  (e <> None /\ st' = st) \/
  (e = None /\ base st' = base st /\ next_seq st' = next_seq st + 1 /\
   c_timestamp st' = true).
Proof.
  unfold send_next.
  destruct (getitem packets (next_seq st - 1)); intros H; injection H as <- <-.
  - right. repeat split.
  - left. split; [discriminate | reflexivity].
Qed.

(** The inner [while] leaves [base] alone, never lowers [next_seq], keeps
    [timestamp] bound and keeps the window invariant. *)
Lemma send_window_facts (fuel : nat) :
  forall st st' e,
    sending fuel st = (st', e) ->
    base st' = base st /\
    next_seq st <= next_seq st' /\
    (c_timestamp st = true -> c_timestamp st' = true) /\
    (window_inv window_size st -> window_inv window_size st').
Proof.
  induction fuel as [ | fuel IH]; intros st st' e H; simpl in H.
  - injection H as <- <-. split; [reflexivity | split; [lia | split; auto]].
  - destruct (is_open st) eqn:Ho.
    + apply window_open_spec in Ho.
      destruct (next st) as [st1 [e1 | ]] eqn:Hn.
      * injection H as <- <-.
        apply send_next_cases in Hn as [[_ ->] | [Hx _]]; [ | discriminate].
        split; [reflexivity | split; [lia | split; auto]].
      * apply send_next_cases in Hn as [[Hx _] | (_ & Hb & Hs & Ht)];
          [congruence | ].
        apply IH in H as (Hb' & Hs' & Ht' & Hi').
        split; [ | split; [ | split]].
        -- congruence.
        -- lia.
        -- intros _. apply Ht'. exact Ht.
        -- intros Hi. apply Hi'. unfold window_inv in *. lia.
    + injection H as <- <-. split; [reflexivity | split; [lia | split; auto]].
Qed.

(** The fuel of [sent] is enough: when it is used up the condition
    of the inner [while] is false. *)
Lemma send_window_closes (fuel : nat) :
  forall st st',
    Z.min (base st + window_size) (total_chunks + 1) - next_seq st <= Z.of_nat fuel ->
    sending fuel st = (st', None) ->
    is_open st' = false.
Proof.
  induction fuel as [ | fuel IH]; intros st st' Hf H; simpl in H.
  - injection H as <-.
    destruct (is_open st) eqn:Ho; [ | reflexivity].
    apply window_open_spec in Ho. lia.
  - destruct (is_open st) eqn:Ho.
    + destruct (next st) as [st1 [e1 | ]] eqn:Hn; [discriminate | ].
      apply send_next_cases in Hn as [[Hx _] | (_ & Hb & Hs & Ht)];
        [congruence | ].
      apply (IH st1); [ | exact H]. lia.
    + injection H as <-. exact Ho.
Qed.

Lemma send_phase_closes (st st' : sender) :
  sent st = (st', None) -> is_open st' = false.
Proof.
  unfold send_phase, window_room. apply send_window_closes. lia.
Qed.

(** When the window is open, the sending loop runs at least once and binds
    [timestamp]. *)
Lemma send_phase_binds_timestamp (st st' : sender) :
  is_open st = true ->
  sent st = (st', None) ->
  c_timestamp st' = true.
Proof.
  intros Ho. unfold send_phase, window_room.
  pose proof Ho as Ho'. apply window_open_spec in Ho'.
  destruct (Z.to_nat (Z.min (base st + window_size) (total_chunks + 1) - next_seq st))
    as [ | fuel] eqn:Ef; [lia | ].
  simpl. rewrite Ho.
  destruct (next st) as [st1 [e1 | ]] eqn:Hn; [discriminate | ].
  apply send_next_cases in Hn as [[Hx _] | (_ & _ & _ & Ht)]; [congruence | ].
  intros H. apply send_window_facts in H as (_ & _ & Ht' & _). auto.
Qed.

Lemma retransmit_facts (todo : list Z) :
  forall st st' e,
    resend todo st = (st', e) ->
    base st' = base st /\ next_seq st' = next_seq st /\
    c_timestamp st' = c_timestamp st.
Proof.
  induction todo as [ | i todo IH]; intros st st' e H; simpl in H.
  - injection H as <- <-. auto.
  - destruct (getitem packets (i - 1)).
    + apply IH in H. simpl in H. exact H.
    + injection H as <- <-. auto.
Qed.

(** The [try] statement never lowers [base] and never touches [next_seq]
    or [timestamp]. *)
Lemma receive_phase_facts (st st' : sender) (ev : recv) (e : option exn) :
  handled st ev = (st', e) ->
  base st <= base st' /\ next_seq st' = next_seq st /\
  c_timestamp st' = c_timestamp st.
Proof.
  unfold receive_phase. destruct ev as [data | ].
  - destruct (extract_packet data) as [[[[[sq ak] fl] rw] pl] | ex].
    + destruct (truthy (Z.land fl ack_flag)).
      * destruct (c_timestamp st) eqn:Ht.
        -- cbn [log_line base next_seq c_timestamp c_log].
           destruct (base st <=? ak) eqn:Hk; intros H; injection H as <- <-; simpl.
           ++ apply Z.leb_le in Hk. repeat split; auto; lia.
           ++ repeat split; auto; lia.
        -- intros H; injection H as <- <-. repeat split; auto; lia.
      * intros H; injection H as <- <-. repeat split; lia.
    + intros H; injection H as <- <-. repeat split; lia.
  - destruct (c_timestamp st) eqn:Ht.
    + intros H. apply retransmit_facts in H. simpl in H.
      destruct H as (-> & -> & ->). repeat split; auto; lia.
    + intros H; injection H as <- <-. repeat split; auto; lia.
Qed.

(** With [timestamp] bound, an ACK for [k >= base] moves [base] to [k + 1];
    nothing else changes but the log. *)
Lemma receive_phase_ack_advances (st : sender) (ev : recv) (k : Z) :
  c_timestamp st = true ->
  acked ev = Some k ->
  base st <= k ->
  handled st ev
  = (mkSender (k + 1) (next_seq st) true (c_log st ++ [Print (AckReceived k)]), None).
Proof.
  intros Ht Ha Hk. unfold receive_phase.
  destruct ev as [data | ]; [ | discriminate Ha].
  unfold acked, header_of in Ha.
  destruct (extract_packet data) as [[[[[sq ak] fl] rw] pl] | ex]; [ | discriminate Ha].
  cbn [flags_of ack_of] in Ha.
  destruct (truthy (Z.land fl ack_flag)); [ | discriminate Ha].
  injection Ha as ->. rewrite Ht.
  cbn [log_line base next_seq c_timestamp c_log].
  apply Z.leb_le in Hk. rewrite Hk. rewrite Ht. reflexivity.
Qed.

(** With [timestamp] bound, an ACK for [k < base] changes nothing but the
    log. *)
Lemma receive_phase_ack_stale (st : sender) (ev : recv) (k : Z) :
  c_timestamp st = true ->
  acked ev = Some k ->
  k < base st ->
  handled st ev
  = (mkSender (base st) (next_seq st) true (c_log st ++ [Print (AckReceived k)]), None).
Proof.
  intros Ht Ha Hk. unfold receive_phase.
  destruct ev as [data | ]; [ | discriminate Ha].
  unfold acked, header_of in Ha.
  destruct (extract_packet data) as [[[[[sq ak] fl] rw] pl] | ex]; [ | discriminate Ha].
  cbn [flags_of ack_of] in Ha.
  destruct (truthy (Z.land fl ack_flag)); [ | discriminate Ha].
  injection Ha as ->. rewrite Ht.
  cbn [log_line base next_seq c_timestamp c_log].
  apply Z.leb_gt in Hk. rewrite Hk. unfold log_line. rewrite Ht. reflexivity.
Qed.

(** While [timestamp] is unbound, any ACK-flagged datagram ends the
    function with [UnboundLocalError], before [base] is looked at. *)
Lemma receive_phase_ack_unbound (st : sender) (ev : recv) (k : Z) :
  c_timestamp st = false ->
  acked ev = Some k ->
  handled st ev = (st, Some UnboundLocalError).
Proof.
  intros Ht Ha. unfold receive_phase.
  destruct ev as [data | ]; [ | discriminate Ha].
  unfold acked, header_of in Ha.
  destruct (extract_packet data) as [[[[[sq ak] fl] rw] pl] | ex]; [ | discriminate Ha].
  cbn [flags_of ack_of] in Ha.
  destruct (truthy (Z.land fl ack_flag)); [ | discriminate Ha].
  rewrite Ht. reflexivity.
Qed.

(** A datagram of fewer than 8 bytes ends the function with
    [struct.error]; the state is the one after the sending loop. *)
Lemma receive_phase_malformed (st : sender) (data : bytes) :
  len data < header_size ->
  handled st (Datagram data) = (st, Some struct_error).
Proof.
  intros H. unfold receive_phase.
  rewrite (extract_packet_short data H). reflexivity.
Qed.

End SenderFacts.

Section SenderRuns.

Variable packets : list bytes.
Variable total_chunks : Z.
Variable window_size : Z.

Local Abbreviation run_from := (sender_loop packets total_chunks window_size).

(** The outer [while], one pass at a time. *)
Lemma sender_loop_unfold (inbox : list recv) (st : sender) :
  run_from inbox st =
  if base st <=? total_chunks then
    match send_phase packets total_chunks window_size st with
    | (st1, Some e) => ([], st1, Crashed e inbox)
    | (st1, None) =>
        match inbox with
        | [] => ([], st1, Blocked)
        | ev :: rest =>
            match receive_phase packets st1 ev with
            | (st2, Some e) => ([mkPass st st1 ev], st2, Crashed e rest)
            | (st2, None) =>
                let '(passes, final, how) := run_from rest st2 in
                (mkPass st st1 ev :: passes, final, how)
            end
        end
    end
  else ([], st, Finished inbox).
Proof. destruct inbox; reflexivity. Qed.

(** Along any run, [base] never goes down. *)
Lemma sender_loop_base_monotone (inbox : list recv) :
  forall st,
    Forall (fun s => base st <= base s) (visited (run_from inbox st)) /\
    StronglySorted Z.le (map base (visited (run_from inbox st))).
Proof.
  induction inbox as [ | ev rest IH]; intros st; rewrite sender_loop_unfold.
  - destruct (base st <=? total_chunks).
    + destruct (send_phase packets total_chunks window_size st) as [st1 [e | ]] eqn:Hs;
        apply send_window_facts in Hs as (Hb & _); simpl;
        (split; [constructor; [lia | constructor]
                | constructor; [constructor | constructor]]).
    + simpl. split; [constructor; [lia | constructor]
                    | constructor; [constructor | constructor]].
  - destruct (base st <=? total_chunks).
    + destruct (send_phase packets total_chunks window_size st) as [st1 [e | ]] eqn:Hs;
        apply send_window_facts in Hs as (Hb & _).
      * simpl. split; [constructor; [lia | constructor]
                      | constructor; [constructor | constructor]].
      * destruct (receive_phase packets st1 ev) as [st2 [e | ]] eqn:Hr;
          apply receive_phase_facts in Hr as (Hb2 & _).
        -- simpl. split.
           ++ repeat constructor; lia.
           ++ repeat constructor; lia.
        -- specialize (IH st2). destruct IH as [IHa IHs].
           destruct (run_from rest st2) as [[passes final] how].
           change (visited (mkPass st st1 ev :: passes, final, how))
             with (st :: st1 :: visited (passes, final, how)).
           assert (H1 : Forall (fun s => base st1 <= base s) (visited (passes, final, how))).
           { eapply Forall_impl; [ | exact IHa]. simpl. intros s Hle. lia. }
           split.
           ++ constructor; [lia | ]. constructor; [lia | ].
              eapply Forall_impl; [ | exact H1]. simpl. intros s Hle. lia.
           ++ simpl map. constructor.
              ** constructor; [exact IHs | ]. apply Forall_map. exact H1.
              ** constructor; [lia | ]. apply Forall_map.
                 eapply Forall_impl; [ | exact H1]. simpl. intros s Hle. lia.
    + simpl. split; [constructor; [lia | constructor]
                    | constructor; [constructor | constructor]].
Qed.

(** The [try] statement keeps the window invariant when the
    acknowledgement it handles is for a packet already sent. *)
Lemma receive_phase_window_inv (st1 st2 : sender) (ev : recv) (e : option exn) :
  receive_phase packets st1 ev = (st2, e) ->
  window_inv window_size st1 ->
  (forall k, acked ev = Some k -> k < next_seq st1) ->
  window_inv window_size st2.
Proof.
  intros Hr Hi1 Ha.
  pose proof (receive_phase_facts _ _ _ _ _ Hr) as (Hb2 & Hn2 & _).
  destruct (acked ev) as [k | ] eqn:Hk.
  - specialize (Ha k eq_refl).
    destruct (c_timestamp st1) eqn:Ht.
    + destruct (Z.le_gt_cases (base st1) k) as [Hle | Hgt].
      * rewrite (receive_phase_ack_advances _ _ _ _ Ht Hk Hle) in Hr.
        injection Hr as <- _. unfold window_inv in *. simpl. lia.
      * rewrite (receive_phase_ack_stale _ _ _ _ Ht Hk Hgt) in Hr.
        injection Hr as <- _. unfold window_inv in *. simpl. lia.
    + rewrite (receive_phase_ack_unbound _ _ _ _ Ht Hk) in Hr.
      injection Hr as <- _. exact Hi1.
  - assert (base st2 = base st1); [ | unfold window_inv in *; lia].
    revert Hr Hk. unfold receive_phase, acked, header_of.
    destruct ev as [data | ].
    + destruct (extract_packet data) as [[[[[sq ak] fl] rw] pl] | ex].
      * cbn [flags_of ack_of].
        destruct (truthy (Z.land fl ack_flag)); [discriminate 2 | ].
        intros H _. injection H as <- _. reflexivity.
      * intros H _. injection H as <- _. reflexivity.
    + destruct (c_timestamp st1).
      * intros H _. apply retransmit_facts in H as (H & _). exact H.
      * intros H _. injection H as <- _. reflexivity.
Qed.

(** Along a run in which no acknowledgement runs ahead of what was sent,
    the window invariant is kept, for a window that is not negative. *)
Lemma sender_loop_window_inv (inbox : list recv) :
  forall st,
    window_inv window_size st ->
    acks_in_flight (fst (fst (run_from inbox st))) ->
    Forall (window_inv window_size) (visited (run_from inbox st)).
Proof.
  induction inbox as [ | ev rest IH]; intros st Hi Ha;
    rewrite sender_loop_unfold in Ha |- *.
  - destruct (base st <=? total_chunks).
    + destruct (send_phase packets total_chunks window_size st) as [st1 [e | ]] eqn:Hs;
        apply send_window_facts in Hs as (_ & _ & _ & Hi1); simpl;
        (constructor; [apply Hi1; exact Hi | constructor]).
    + simpl. constructor; [exact Hi | constructor].
  - destruct (base st <=? total_chunks).
    + destruct (send_phase packets total_chunks window_size st) as [st1 [e | ]] eqn:Hs;
        apply send_window_facts in Hs as (_ & _ & _ & Hi1); specialize (Hi1 Hi).
      * simpl. constructor; [exact Hi1 | constructor].
      * destruct (receive_phase packets st1 ev) as [st2 [e | ]] eqn:Hr.
        -- simpl in Ha |- *. apply Forall_inv in Ha. simpl in Ha.
           pose proof (receive_phase_window_inv _ _ _ _ Hr Hi1 Ha) as Hi2.
           constructor; [exact Hi | ]. constructor; [exact Hi1 | ].
           constructor; [exact Hi2 | constructor].
        -- specialize (IH st2).
           destruct (run_from rest st2) as [[passes final] how].
           change (visited (mkPass st st1 ev :: passes, final, how))
             with (st :: st1 :: visited (passes, final, how)).
           simpl in Ha. pose proof (Forall_inv Ha) as Ha1. simpl in Ha1.
           apply Forall_inv_tail in Ha.
           pose proof (receive_phase_window_inv _ _ _ _ Hr Hi1 Ha1) as Hi2.
           constructor; [exact Hi | ]. constructor; [exact Hi1 | ].
           apply IH; [exact Hi2 | exact Ha].
    + simpl. constructor; [exact Hi | constructor].
Qed.

End SenderRuns.

Section SenderSafety.

Variable packets : list bytes.
Variable total_chunks : Z.
Variable window_size : Z.
Hypothesis packets_length : len packets = total_chunks.

Lemma getitem_in_range (i : Z) :
  0 <= i < total_chunks -> exists packet, getitem packets i = Ok packet.
Proof.
  intros Hi. unfold getitem.
  destruct (i <? 0) eqn:E; [apply Z.ltb_lt in E; lia | rewrite E].
  destruct (nth_error packets (Z.to_nat i)) as [packet | ] eqn:Hn.
  - exists packet. reflexivity.
  - apply nth_error_None in Hn. unfold len in packets_length. lia.
Qed.

(** The sending loop indexes [packets] within its bounds. *)
Lemma send_window_safe (fuel : nat) :
  forall st,
    1 <= next_seq st <= total_chunks + 1 ->
    snd (send_window packets total_chunks window_size fuel st) = None /\
    next_seq (fst (send_window packets total_chunks window_size fuel st))
    <= total_chunks + 1.
Proof.
  induction fuel as [ | fuel IH]; intros st Hn; simpl.
  - split; [reflexivity | lia].
  - destruct (window_open total_chunks window_size st) eqn:Ho;
      [ | split; [reflexivity | simpl; lia]].
    apply window_open_spec in Ho. unfold send_next.
    assert (Hi : 0 <= next_seq st - 1 < total_chunks) by lia.
    destruct (getitem_in_range _ Hi) as [packet ->].
    apply IH. simpl. lia.
Qed.

(** So does the retransmission of the outstanding window. *)
Lemma retransmit_safe (todo : list Z) :
  forall st,
    Forall (fun i => 1 <= i <= total_chunks) todo ->
    snd (retransmit packets todo st) = None.
Proof.
  induction todo as [ | i todo IH]; intros st Hall; simpl.
  - reflexivity.
  - pose proof (Forall_inv Hall) as Hi. simpl in Hi.
    assert (Hi' : 0 <= i - 1 < total_chunks) by lia.
    destruct (getitem_in_range _ Hi') as [packet ->].
    apply IH. exact (Forall_inv_tail Hall).
Qed.

Lemma range_bounds (a b : Z) : Forall (fun i => a <= i < b) (range a b).
Proof.
  unfold range. apply Forall_map. apply Forall_forall.
  intros n Hn. apply in_seq in Hn. lia.
Qed.

Lemma receive_phase_safe (st : sender) (ev : recv) :
  1 <= base st -> next_seq st <= total_chunks + 1 ->
  snd (receive_phase packets st ev) <> Some IndexError.
Proof.
  intros Hb Hn. unfold receive_phase. destruct ev as [data | ].
  - destruct (extract_packet data) as [[[[[sq ak] fl] rw] pl] | ex] eqn:Hx.
    + destruct (truthy (Z.land fl ack_flag)); [ | discriminate].
      destruct (c_timestamp st); [ | discriminate].
      cbn [log_line base]. destruct (base st <=? ak); discriminate.
    + unfold extract_packet, parse_header in Hx.
      destruct (slice_to header_size data) as [ | ? [ | ? [ | ? [ | ? [ | ? [ | ? [ | ? [ | ? [ | ? ?]]]]]]]]];
        simpl in Hx; try discriminate Hx; injection Hx as <-; discriminate.
  - destruct (c_timestamp st); [ | discriminate].
    rewrite retransmit_safe; [discriminate | ].
    cbn [log_line base next_seq].
    eapply Forall_impl; [ | apply range_bounds]. simpl. intros i Hi. lia.
Qed.

(** A run of the loop over the packets of the file never ends in
    [IndexError]. *)
Lemma sender_loop_safe (inbox : list recv) :
  forall st,
    1 <= base st -> 1 <= next_seq st <= total_chunks + 1 ->
    forall e rest,
      snd (sender_loop packets total_chunks window_size inbox st) = Crashed e rest ->
      e <> IndexError.
Proof.
  induction inbox as [ | ev rest' IH]; intros st Hb Hn e rest; rewrite sender_loop_unfold.
  - destruct (base st <=? total_chunks); [ | discriminate].
    pose proof (send_window_safe (window_room total_chunks window_size st) st Hn) as [Hs _].
    fold (send_phase packets total_chunks window_size st) in Hs.
    destruct (send_phase packets total_chunks window_size st) as [st1 [e1 | ]];
      [discriminate Hs | discriminate].
  - destruct (base st <=? total_chunks); [ | discriminate].
    pose proof (send_window_safe (window_room total_chunks window_size st) st Hn) as [Hs Hn1].
    fold (send_phase packets total_chunks window_size st) in Hs, Hn1.
    destruct (send_phase packets total_chunks window_size st) as [st1 [e1 | ]] eqn:Hsend;
      [discriminate Hs | ].
    apply send_window_facts in Hsend as (Hb1 & Hle1 & _). cbn [fst] in Hn1.
    assert (Hsafe : snd (receive_phase packets st1 ev) <> Some IndexError)
      by (apply receive_phase_safe; lia).
    destruct (receive_phase packets st1 ev) as [st2 [e2 | ]] eqn:Hr.
    + cbn [snd] in Hsafe |- *. intros H. injection H as <- _. congruence.
    + apply receive_phase_facts in Hr as (Hb2 & Hn2 & _).
      specialize (IH st2 ltac:(lia) ltac:(lia) e rest).
      destruct (sender_loop packets total_chunks window_size rest' st2) as [[passes final] how].
      exact IH.
Qed.

End SenderSafety.

Lemma create_packets_length (file_data : bytes) (n : nat) :
  forall start packets,
    create_packets file_data start n = Ok packets -> List.length packets = n.
Proof.
  induction n as [ | n IH]; intros start packets H; simpl in H.
  - injection H as <-. reflexivity.
  - destruct (create_packet (start + 1) 0 0 0
                (slice (start * max_data) ((start + 1) * max_data) file_data));
      [ | discriminate H].
    simpl in H.
    destruct (create_packets file_data (start + 1) n) as [rest | ] eqn:E;
      [ | discriminate H].
    injection H as <-. simpl. f_equal. exact (IH _ _ E).
Qed.

(** [client_send_file] never ends in [IndexError]: one packet was built for
    each chunk, and the loop only indexes chunks [1 .. total_chunks]. *)
Lemma send_file_run_safe (file_data : bytes) (window_size : Z) (inbox : list recv)
    (run : list pass * sender * ending) (e : exn) (rest : list recv) :
  send_file_run file_data window_size inbox = Ok run ->
  snd run = Crashed e rest ->
  e <> IndexError.
Proof.
  unfold send_file_run.
  destruct (create_packets file_data 0 (Z.to_nat (total_chunks_of file_data)))
    as [packets | ] eqn:E; [ | discriminate].
  simpl. intros H. injection H as <-.
  assert (Htotal : 0 <= total_chunks_of file_data).
  { unfold total_chunks_of, max_data, len. apply Z.div_pos; lia. }
  apply sender_loop_safe.
  - unfold len. rewrite (create_packets_length _ _ _ _ E). lia.
  - simpl. lia.
  - simpl. lia.
Qed.

Section SenderClaims.

Variable packets : list bytes.
Variable total_chunks : Z.
Variable window_size : Z.

Local Abbreviation run_from := (sender_loop packets total_chunks window_size).

(** With a window of at least one packet, [timestamp] is bound whenever
    the [try] statement is entered: the first pass of the outer loop sends
    at least one packet. *)
Lemma timestamp_bound_after_send (inbox : list recv) :
  1 <= window_size ->
  forall st,
    c_timestamp st = true \/ next_seq st = base st ->
    Forall (fun p => c_timestamp (after_send p) = true) (fst (fst (run_from inbox st))).
Proof.
  intros Hw. induction inbox as [ | ev rest IH]; intros st Hst;
    rewrite sender_loop_unfold.
  - destruct (base st <=? total_chunks);
      [destruct (send_phase packets total_chunks window_size st) as [st1 [e | ]] | ];
      constructor.
  - destruct (base st <=? total_chunks) eqn:Hg; [ | constructor].
    apply Z.leb_le in Hg.
    destruct (send_phase packets total_chunks window_size st) as [st1 [e | ]] eqn:Hs;
      [constructor | ].
    assert (Ht1 : c_timestamp st1 = true).
    { destruct Hst as [Ht | Heq].
      - apply send_window_facts in Hs as (_ & _ & Hk & _). auto.
      - assert (Ho : window_open total_chunks window_size st = true)
          by (apply window_open_spec; lia).
        exact (send_phase_binds_timestamp _ _ _ _ _ Ho Hs). }
    destruct (receive_phase packets st1 ev) as [st2 [e | ]] eqn:Hr.
    + simpl. constructor; [exact Ht1 | constructor].
    + apply receive_phase_facts in Hr as (_ & _ & Ht2).
      specialize (IH st2 (or_introl (eq_trans Ht2 Ht1))).
      destruct (run_from rest st2) as [[passes final] how].
      simpl in IH |- *. constructor; [exact Ht1 | exact IH].
Qed.

(** Cumulative acknowledgement, for a window of at least one packet: in
    every pass of the loop, an ACK for [k >= base] moves [base] to
    [k + 1], an ACK for [k < base] leaves [base] and [next_seq] as they
    are, and neither raises. *)
Lemma cumulative_ack_in_runs (inbox : list recv) :
  1 <= window_size ->
  Forall (fun p =>
            forall k, acked (received p) = Some k ->
              let st := after_send p in
              receive_phase packets st (received p)
              = (mkSender (if base st <=? k then k + 1 else base st) (next_seq st) true
                   (c_log st ++ [Print (AckReceived k)]), None))
         (fst (fst (run_from inbox sender_init))).
Proof.
  intros Hw.
  pose proof (timestamp_bound_after_send inbox Hw sender_init (or_intror eq_refl)) as H.
  eapply Forall_impl; [ | exact H]. simpl. intros p Ht k Hk.
  destruct (base (after_send p) <=? k) eqn:E.
  - apply Z.leb_le in E. apply receive_phase_ack_advances; assumption.
  - apply Z.leb_gt in E. apply receive_phase_ack_stale; assumption.
Qed.

(** C3, amended.  For a window size that is not negative, along every run
    of the loop in which each acknowledgement received is for a packet
    already sent ([ack < next_seq]), [base <= next_seq <= base +
    window_size] holds in every state the loop goes through (at the head
    of each pass, after its sending loop, and when the loop is left), and
    [base] never decreases from one of these states to a later one. *)
Theorem window_invariant_kept (inbox : list recv) :
  0 <= window_size ->
  acks_in_flight (fst (fst (run_from inbox sender_init))) ->
  Forall (window_inv window_size) (visited (run_from inbox sender_init)) /\
  StronglySorted Z.le (map base (visited (run_from inbox sender_init))).
Proof.
  intros Hw Ha. split.
  - apply sender_loop_window_inv; [ | exact Ha].
    unfold window_inv, sender_init. cbn [base next_seq]. lia.
  - apply sender_loop_base_monotone.
Qed.

End SenderClaims.

Lemma window_invariant_kept_witness :
  let run := sender_loop [data_packet_1; data_packet_2] 2 1
               [Timeout; Datagram ack_packet_1; Datagram ack_packet_2] sender_init in
  Forall (window_inv 1) (visited run) /\ StronglySorted Z.le (map base (visited run)).
Proof.
  apply (window_invariant_kept [data_packet_1; data_packet_2] 2 1
           [Timeout; Datagram ack_packet_1; Datagram ack_packet_2]).
  - lia.
  - vm_compute. repeat constructor; intros k H; inversion H; reflexivity.
Defined.

(** On the witness run the loop ends with both packets acknowledged. *)
Example two_packets_window_one :
  let '(passes, final, how) :=
    sender_loop [data_packet_1; data_packet_2] 2 1
      [Timeout; Datagram ack_packet_1; Datagram ack_packet_2] sender_init in
  map base (visited (passes, final, how)) = [1; 1; 1; 1; 2; 2; 3] /\
  next_seq final = 3 /\ how = Finished [] /\
  sent_packets (c_log final) = [data_packet_1; data_packet_1; data_packet_2].
Proof. vm_compute. repeat split. Qed.

(** C3, as stated, fails for a negative window size: with
    [window_size = -1] the loop is entered ([base = 1 <= total_chunks = 1]),
    no acknowledgement is received at all, and [next_seq = 1] is above
    [base + window_size = 0] in the first pass. *)
Lemma window_invariant_negative_window :
  send_file_run [x61] (-1) [Timeout]
  = Ok ([mkPass sender_init sender_init Timeout], sender_init,
        Crashed UnboundLocalError []) /\
  acks_in_flight [mkPass sender_init sender_init Timeout] /\
  base sender_init <= total_chunks_of [x61] /\
  ~ window_inv (-1) sender_init.
Proof.
  split; [reflexivity | ]. split.
  - constructor; [ | constructor]. intros k H. discriminate H.
  - split; [vm_compute; discriminate | ].
    unfold window_inv, sender_init. cbn [base next_seq]. lia.
Qed.

(** C1 at a window size of 0.  The loop is entered, the sending loop does
    not run, so [timestamp] is unbound when the first datagram arrives; an
    ACK for packet 1 then raises [UnboundLocalError] in the [print] of line
    227 and [base] stays 1, where the claim says it becomes 2. *)
Theorem ack_with_window_zero_raises :
  acked (Datagram ack_packet_1) = Some 1 /\
  base sender_init <= 1 /\
  send_file_run [x61] 0 [Datagram ack_packet_1]
  = Ok ([mkPass sender_init sender_init (Datagram ack_packet_1)], sender_init,
        Crashed UnboundLocalError []) /\
  client_send_file [x61] 0 [Datagram ack_packet_1]
  = ([Print (Text "Data Transfer:")], Raises UnboundLocalError []).
Proof. repeat split. vm_compute. discriminate. Qed.

(** ** The loop of [server_receive_files] *)

Section ReceiverFacts.

Variable discard_seq : option Z.

(** With no discard target configured, or with the flag cleared, the
    discard branch is never taken. *)
Lemma receive_step_unarmed (st : receiver) (ev : recv) :
  configured discard_seq && discard_once st = false ->
  receive_step discard_seq st ev = receive_step None st ev /\
  is_discarded (fst (receive_step discard_seq st ev)) = false /\
  discard_once (snd (receive_step discard_seq st ev)) = discard_once st.
Proof.
  intros Hc. unfold receive_step, handler. destruct ev as [data | ].
  - destruct (extract_packet data) as [[[[[sq ak] fl] rw] pl] | ex].
    + destruct (truthy (Z.land fl fin_flag)).
      * destruct (create_packet 0 0 (Z.lor fin_flag ack_flag) 0 []); repeat split.
      * assert (E : configured discard_seq && is_target discard_seq sq && discard_once st
                    = false).
        { destruct (configured discard_seq), (discard_once st),
            (is_target discard_seq sq); simpl in *; congruence. }
        rewrite E. cbn [configured andb].
        destruct (sq =? expected_seq st).
        -- destruct (create_packet 0 sq ack_flag 0 []); repeat split.
        -- destruct (s_timestamp st); repeat split.
    + repeat split.
  - repeat split.
Qed.

(** One pass never writes, sends or counts anything unless it takes the
    in-order or the FIN branch. *)
(** A datagram whose header was read has a sequence number that fits the
    ACK built for it. *)
Lemma ack_for_received (data : bytes) (sq ak fl rw : Z) (pl : bytes) :
  extract_packet data = Ok ((sq, ak, fl, rw), pl) ->
  create_packet 0 sq ack_flag 0 [] = Ok (header_bytes_of 0 sq ack_flag 0 ++ []).
Proof.
  intros Hx. apply extract_packet_fields in Hx as (Hs & _). unfold seq_of in Hs.
  apply create_packet_ok; unfold ack_flag; lia.
Qed.

Lemma sent_packets_print (log : list output) (l : line) :
  sent_packets (log ++ [Print l]) = sent_packets log.
Proof. unfold sent_packets. rewrite flat_map_app. simpl. apply app_nil_r. Qed.

(** One pass writes, sends and counts nothing, and leaves the expected
    sequence number alone, unless it takes the in-order or the FIN
    branch. *)
Lemma receive_step_quiet (st : receiver) (ev : recv) :
  match fst (receive_step discard_seq st ev) with
  | InOrder | FinReceived => True
  | _ =>
      let st' := snd (receive_step discard_seq st ev) in
      f st' = f st /\ sent_packets (s_log st') = sent_packets (s_log st) /\
      expected_seq st' = expected_seq st /\ total_received st' = total_received st /\
      s_timestamp st' = s_timestamp st
  end.
Proof.
  unfold receive_step, handler. destruct ev as [data | ].
  - destruct (extract_packet data) as [[[[[sq ak] fl] rw] pl] | ex] eqn:Hx.
    + destruct (truthy (Z.land fl fin_flag)).
      * destruct (create_packet 0 0 (Z.lor fin_flag ack_flag) 0 []) eqn:E;
          [exact I | discriminate E].
      * destruct (configured discard_seq && is_target discard_seq sq && discard_once st).
        -- simpl. repeat split.
        -- destruct (sq =? expected_seq st) eqn:Hsq.
           ++ rewrite (ack_for_received _ _ _ _ _ _ Hx). exact I.
           ++ destruct (s_timestamp st) eqn:Ht; simpl; rewrite sent_packets_print;
                repeat split; exact Ht.
    + simpl. rewrite sent_packets_print. repeat split.
  - simpl. rewrite sent_packets_print. repeat split.
Qed.

End ReceiverFacts.

(** One pass of the loop, with the two packets it can build written out:
    building them never raises. *)
Lemma receive_step_eval (discard_seq : option Z) (st : receiver) (ev : recv) :
  receive_step discard_seq st ev =
  match ev with
  | Timeout => handler st socket_timeout
  | Datagram data =>
      match extract_packet data with
      | Raise e => handler st e
      | Ok ((seq, ack, flags, rwnd), payload) =>
          if truthy (Z.land flags fin_flag) then
            (FinReceived,
             s_print (s_send (s_print st (Text "FIN packet is received"))
                        [x00; x00; x00; x00; x00; x0a; x00; x00])
               (Text "FIN ACK packet is sent"))
          else if configured discard_seq && is_target discard_seq seq && discard_once st then
            (Discarded, disarmed st)
          else if seq =? expected_seq st then
            (InOrder,
             mkReceiver (expected_seq st + 1) (total_received st + len payload)
               (discard_once st) true (f st ++ payload)
               (((s_log st ++ [Print (PacketReceived seq)])
                 ++ [Send (header_bytes_of 0 seq ack_flag 0 ++ [])])
                ++ [Print (SendingAck seq)]))
          else if s_timestamp st then (OutOfOrder, s_print st (OutOfOrderPacket seq))
          else handler st UnboundLocalError
      end
  end.
Proof.
  unfold receive_step. destruct ev as [data | ]; [ | reflexivity].
  destruct (extract_packet data) as [[[[[sq ak] fl] rw] pl] | ex] eqn:Hx; [ | reflexivity].
  rewrite (ack_for_received _ _ _ _ _ _ Hx). reflexivity.
Qed.

Section DiscardOnce.

Variable k : Z.
Hypothesis k_nonzero : k <> 0.

(** What the discard branch does to one pass, for a configured target. *)
Lemma receive_step_discard (st : receiver) (ev : recv) :
  is_discarded (fst (receive_step (Some k) st ev)) = discard_once st && hits k ev /\
  discard_once (snd (receive_step (Some k) st ev)) = discard_once st && negb (hits k ev) /\
  (is_discarded (fst (receive_step (Some k) st ev)) = true ->
   snd (receive_step (Some k) st ev) = disarmed st) /\
  (is_discarded (fst (receive_step (Some k) st ev)) = false ->
   receive_step (Some k) st ev = receive_step None st ev).
Proof.
  assert (Hc : configured (Some k) = true) by (apply truthy_true; exact k_nonzero).
  rewrite !receive_step_eval. unfold handler, hits, header_of. rewrite Hc.
  cbn [configured is_target andb].
  destruct ev as [data | ].
  - destruct (extract_packet data) as [[[[[sq ak] fl] rw] pl] | ex] eqn:Hx.
    + cbn [flags_of seq_of].
      destruct (truthy (Z.land fl fin_flag)).
      * rewrite andb_false_r. settle_step.
      * cbn [negb andb].
        destruct (sq =? k) eqn:Hsq; destruct (discard_once st) eqn:Hd;
          cbn [andb negb]; try solve [settle_step];
          destruct (sq =? expected_seq st); try solve [settle_step];
          destruct (s_timestamp st); settle_step.
    + rewrite andb_false_r. settle_step.
  - rewrite andb_false_r. settle_step.
Qed.

(** Along a run: a pass takes the discard branch exactly when the flag was
    set at the start, its datagram is a non-FIN packet number [k], and no
    earlier datagram was one. *)
Lemma receive_loop_discard (inbox : list recv) :
  forall st pre s post,
    fst (receive_loop (Some k) inbox st) = pre ++ s :: post ->
    is_discarded (taken s)
    = discard_once st && hits k (arrived s)
      && negb (existsb (fun s' => hits k (arrived s')) pre) /\
    (is_discarded (taken s) = true -> after s = disarmed (before s)) /\
    (is_discarded (taken s) = false ->
     (taken s, after s) = receive_step None (before s) (arrived s)).
Proof.
  induction inbox as [ | ev rest IH]; intros st pre s post H.
  - destruct pre; discriminate H.
  - cbn [receive_loop] in H.
    pose proof (receive_step_discard st ev) as (Hd & Hf & Ht & Hn).
    destruct (receive_step (Some k) st ev) as [b st'] eqn:Hstep.
    cbn [fst snd] in Hd, Hf, Ht, Hn.
    assert (Hn' : is_discarded b = false -> (b, st') = receive_step None st ev)
      by (intros E; apply Hn; exact E).
    assert (Hfirst : forall s0, s0 = mkStep st ev b st' ->
              is_discarded (taken s0) = discard_once st && hits k (arrived s0) && negb false /\
              (is_discarded (taken s0) = true -> after s0 = disarmed (before s0)) /\
              (is_discarded (taken s0) = false ->
               (taken s0, after s0) = receive_step None (before s0) (arrived s0))).
    { intros s0 ->. cbn [taken arrived after before].
      rewrite andb_true_r. repeat split; assumption. }
    destruct (leaves_loop b) eqn:Hl.
    + cbn [fst] in H. destruct pre as [ | s0 pre].
      * injection H as <-. apply Hfirst. reflexivity.
      * injection H as _ H. destruct pre; discriminate H.
    + destruct (receive_loop (Some k) rest st') as [steps final] eqn:Hrest.
      cbn [fst] in H. destruct pre as [ | s0 pre].
      * injection H as <- _. apply Hfirst. reflexivity.
      * injection H as <- H.
        specialize (IH st' pre s post). rewrite Hrest in IH.
        destruct (IH H) as (IHd & IHt & IHn).
        split; [ | split; assumption].
        rewrite IHd, Hf. cbn [existsb arrived].
        destruct (discard_once st), (hits k ev), (hits k (arrived s)),
          (existsb (fun s' => hits k (arrived s')) pre); reflexivity.
Qed.

End DiscardOnce.

Section ReceiverRuns.

Variable discard_seq : option Z.

(** The steps of [server_receive_files] are those of its loop. *)
Lemma server_receive_files_steps (inbox : list recv) :
  fst (server_receive_files discard_seq inbox)
  = fst (receive_loop discard_seq inbox (receiver_init discard_seq)).
Proof.
  unfold server_receive_files.
  destruct (receive_loop discard_seq inbox (receiver_init discard_seq)) as [steps final].
  destruct (left_loop steps); reflexivity.
Qed.

(** Every step records one pass, and the run stops at the first pass that
    leaves the loop. *)
Lemma receive_loop_steps (inbox : list recv) :
  forall st pre s post,
    fst (receive_loop discard_seq inbox st) = pre ++ s :: post ->
    (taken s, after s) = receive_step discard_seq (before s) (arrived s) /\
    before s = fold_left (fun _ s' => after s') pre st /\
    (leaves_loop (taken s) = true ->
     post = [] /\ snd (receive_loop discard_seq inbox st) = after s).
Proof.
  induction inbox as [ | ev rest IH]; intros st pre s post H.
  - destruct pre; discriminate H.
  - cbn [receive_loop] in H |- *.
    destruct (receive_step discard_seq st ev) as [b st'] eqn:Hstep.
    destruct (leaves_loop b) eqn:Hl.
    + cbn [fst snd] in H |- *. destruct pre as [ | s0 pre].
      * injection H as <- <-. cbn. rewrite Hstep. repeat split.
      * injection H as _ H. destruct pre; discriminate H.
    + specialize (IH st').
      destruct (receive_loop discard_seq rest st') as [steps final] eqn:Hrest.
      cbn [fst snd] in H, IH |- *. destruct pre as [ | s0 pre].
      * injection H as <- _. cbn. rewrite Hstep.
        split; [reflexivity | split; [reflexivity | ]].
        intros E. congruence.
      * injection H as <- H. cbn [fold_left after]. apply IH. exact H.
Qed.

(** Without a target, or once the flag is cleared, no pass takes the
    discard branch. *)
Lemma receive_loop_unarmed (inbox : list recv) :
  forall st,
    configured discard_seq && discard_once st = false ->
    Forall (fun s => is_discarded (taken s) = false)
           (fst (receive_loop discard_seq inbox st)).
Proof.
  induction inbox as [ | ev rest IH]; intros st Hc; cbn [receive_loop].
  - constructor.
  - pose proof (receive_step_unarmed discard_seq st ev Hc) as (_ & Hd & Hf).
    destruct (receive_step discard_seq st ev) as [b st'].
    cbn [fst snd] in Hd, Hf.
    destruct (leaves_loop b).
    + cbn. constructor; [exact Hd | constructor].
    + specialize (IH st'). rewrite Hf in IH. specialize (IH Hc).
      destruct (receive_loop discard_seq rest st') as [steps final].
      cbn [fst] in IH |- *. constructor; [exact Hd | exact IH].
Qed.

End ReceiverRuns.

(** ** The receiver: claims *)

(** C2.  A datagram with a header, without the FIN flag, that is not the
    one-time discard target and whose sequence number differs from
    [expected_seq] is neither written nor answered: the output file, the
    packets sent, [expected_seq] and [total_received] are what they were.
    The pass takes the out-of-order branch, which raises
    [UnboundLocalError] while [timestamp] is unbound. *)
Theorem out_of_order_ignored
    (discard_seq : option Z) (st : receiver) (ev : recv) (h : Z * Z * Z * Z) :
  header_of ev = Some h ->
  Z.land (flags_of h) fin_flag = 0 ->
  configured discard_seq && is_target discard_seq (seq_of h) && discard_once st = false ->
  seq_of h <> expected_seq st ->
  fst (receive_step discard_seq st ev)
  = (if s_timestamp st then OutOfOrder else Failed UnboundLocalError) /\
  f (snd (receive_step discard_seq st ev)) = f st /\
  sent_packets (s_log (snd (receive_step discard_seq st ev))) = sent_packets (s_log st) /\
  expected_seq (snd (receive_step discard_seq st ev)) = expected_seq st /\
  total_received (snd (receive_step discard_seq st ev)) = total_received st.
Proof.
  intros Hh Hfin Hd Hseq.
  assert (Hb : fst (receive_step discard_seq st ev)
               = if s_timestamp st then OutOfOrder else Failed UnboundLocalError).
  { rewrite receive_step_eval. unfold header_of in Hh.
    destruct ev as [data | ]; [ | discriminate Hh].
    destruct (extract_packet data) as [[[[[sq ak] fl] rw] pl] | ex]; [ | discriminate Hh].
    injection Hh as <-. cbn [flags_of seq_of] in Hfin, Hd, Hseq.
    unfold truthy. rewrite Hfin. cbn [Z.eqb negb]. rewrite Hd.
    apply Z.eqb_neq in Hseq. rewrite Hseq.
    destruct (s_timestamp st); reflexivity. }
  split; [exact Hb | ].
  pose proof (receive_step_quiet discard_seq st ev) as Hq. rewrite Hb in Hq.
  destruct (s_timestamp st); cbn zeta in Hq; tauto.
Qed.

Lemma out_of_order_ignored_witness :
  let st := mkReceiver 2 1 false true [x61] [] in
  fst (receive_step None st (Datagram data_packet_1)) = OutOfOrder /\
  f (snd (receive_step None st (Datagram data_packet_1))) = [x61] /\
  sent_packets (s_log (snd (receive_step None st (Datagram data_packet_1)))) = [] /\
  expected_seq (snd (receive_step None st (Datagram data_packet_1))) = 2 /\
  total_received (snd (receive_step None st (Datagram data_packet_1))) = 1.
Proof.
  apply (out_of_order_ignored None (mkReceiver 2 1 false true [x61] [])
           (Datagram data_packet_1) (1, 0, 0, 0)).
  - reflexivity.
  - reflexivity.
  - reflexivity.
  - simpl. lia.
Defined.

(** C6.  With [discard_seq = k >= 1], a pass of the loop takes the discard
    branch exactly when its datagram is a non-FIN packet with sequence
    number [k] and no earlier datagram of the run was one: the first such
    packet is dropped and no other.  The dropped packet changes nothing
    but the discard flag.  Every other pass, so every later packet number
    [k], is what the loop does with no discard target configured.  With no
    discard target configured, no pass takes the discard branch. *)
Theorem discard_once_exactly (inbox : list recv) :
  (forall (k : Z) (pre : list step) (s : step) (post : list step),
      1 <= k ->
      fst (server_receive_files (Some k) inbox) = pre ++ s :: post ->
      is_discarded (taken s)
      = hits k (arrived s) && negb (existsb (fun s' => hits k (arrived s')) pre) /\
      (is_discarded (taken s) = true ->
       f (after s) = f (before s) /\ s_log (after s) = s_log (before s) /\
       expected_seq (after s) = expected_seq (before s) /\
       total_received (after s) = total_received (before s) /\
       discard_once (after s) = false) /\
      (is_discarded (taken s) = false ->
       (taken s, after s) = receive_step None (before s) (arrived s))) /\
  Forall (fun s => is_discarded (taken s) = false) (fst (server_receive_files None inbox)).
Proof.
  split.
  - intros k pre s post Hk H. rewrite server_receive_files_steps in H.
    assert (Hk0 : k <> 0) by lia.
    pose proof (receive_loop_discard k Hk0 inbox _ _ _ _ H) as (Hd & Ht & Hn).
    assert (Ha : discard_once (receiver_init (Some k)) = true).
    { cbn. apply truthy_true. exact Hk0. }
    rewrite Ha in Hd. cbn [andb] in Hd.
    split; [exact Hd | ]. split; [ | exact Hn].
    intros E. rewrite (Ht E). cbn. repeat split.
  - rewrite server_receive_files_steps. apply receive_loop_unarmed. reflexivity.
Qed.

Lemma discard_once_exactly_witness :
  is_discarded (taken step_accepted_2)
  = hits 2 (arrived step_accepted_2)
    && negb (existsb (fun s' => hits 2 (arrived s')) [step_dropped_2; step_accepted_1]) /\
  (is_discarded (taken step_accepted_2) = true ->
   f (after step_accepted_2) = f (before step_accepted_2) /\
   s_log (after step_accepted_2) = s_log (before step_accepted_2) /\
   expected_seq (after step_accepted_2) = expected_seq (before step_accepted_2) /\
   total_received (after step_accepted_2) = total_received (before step_accepted_2) /\
   discard_once (after step_accepted_2) = false) /\
  (is_discarded (taken step_accepted_2) = false ->
   (taken step_accepted_2, after step_accepted_2)
   = receive_step None (before step_accepted_2) (arrived step_accepted_2)).
Proof.
  apply (proj1 (discard_once_exactly
                  [Datagram data_packet_2; Datagram data_packet_1; Datagram data_packet_2])
           2 [step_dropped_2; step_accepted_1] step_accepted_2 []).
  - lia.
  - reflexivity.
Defined.

(** ** Datagrams without a header *)

(** C8, as stated, fails on both sides.  The receiver leaves its loop on a
    3-byte datagram: the valid packet 1 that follows is never looked at and
    nothing is written.  In the sender the [struct.error] of a 1-byte
    datagram is not handled by [except socket.timeout]; it ends
    [client_send_file], and the ACK that follows is never read. *)
Lemma malformed_datagram_aborts :
  server_receive_files None [Datagram [x00; x01; x02]; Datagram data_packet_1]
  = ([mkStep (receiver_init None) (Datagram [x00; x01; x02]) (Failed struct_error)
        (s_print (receiver_init None) (Error struct_error))],
     mkReceiver 1 0 false false []
       [Print (Error struct_error); Print Throughput; Print (Text "Connection Closes")]) /\
  snd (client_send_file [x61] 1 [Datagram [x00]; Datagram ack_packet_1])
  = Raises struct_error [Datagram ack_packet_1].
Proof. split; reflexivity. Qed.

(** C8, amended.  A datagram of fewer than 8 bytes changes no variable of
    the session, but it ends the loop that received it.  In
    [server_receive_files] the handler prints the error and breaks:
    [expected_seq], [total_received], the discard flag and the output file
    are what they were, nothing is sent, and no later datagram is
    processed.  In [client_send_file] the [struct.error] leaves the function
    with [base] and [next_seq] as the sending loop left them. *)
Theorem malformed_datagram_ends_loop (data : bytes) :
  len data < header_size ->
  (forall (discard_seq : option Z) (st : receiver) (rest : list recv),
      receive_loop discard_seq (Datagram data :: rest) st
      = ([mkStep st (Datagram data) (Failed struct_error)
            (s_print st (Error struct_error))],
         mkReceiver (expected_seq st) (total_received st) (discard_once st)
           (s_timestamp st) (f st) (s_log st ++ [Print (Error struct_error)]))) /\
  (forall (packets : list bytes) (total_chunks window_size : Z)
          (st st1 : sender) (rest : list recv),
      base st <= total_chunks ->
      send_phase packets total_chunks window_size st = (st1, None) ->
      sender_loop packets total_chunks window_size (Datagram data :: rest) st
      = ([mkPass st st1 (Datagram data)], st1, Crashed struct_error rest)).
Proof.
  intros Hlen. split.
  - intros discard_seq st rest. cbn [receive_loop].
    unfold receive_step. rewrite (extract_packet_short data Hlen). reflexivity.
  - intros packets total_chunks window_size st st1 rest Hb Hs.
    rewrite sender_loop_unfold. apply Z.leb_le in Hb. rewrite Hb, Hs.
    rewrite (receive_phase_malformed packets st1 data Hlen). reflexivity.
Qed.

Lemma malformed_datagram_ends_loop_witness :
  receive_loop (Some 2) [Datagram [xff; xff]; Datagram data_packet_1] (receiver_init (Some 2))
  = ([mkStep (receiver_init (Some 2)) (Datagram [xff; xff]) (Failed struct_error)
        (s_print (receiver_init (Some 2)) (Error struct_error))],
     mkReceiver 1 0 true false [] [Print (Error struct_error)]) /\
  sender_loop [data_packet_1] 1 3 [Datagram [xff; xff]; Timeout] sender_init
  = ([mkPass sender_init
        (mkSender 1 2 true
           [Print (Text "Data Transfer:"); Send data_packet_1; Print (PacketSent 1 1)])
        (Datagram [xff; xff])],
     mkSender 1 2 true
       [Print (Text "Data Transfer:"); Send data_packet_1; Print (PacketSent 1 1)],
     Crashed struct_error [Timeout]).
Proof.
  assert (Hlen : len [xff; xff] < header_size) by (vm_compute; reflexivity).
  split.
  - apply (proj1 (malformed_datagram_ends_loop [xff; xff] Hlen)).
  - apply (proj2 (malformed_datagram_ends_loop [xff; xff] Hlen)).
    + vm_compute. discriminate.
    + reflexivity.
Defined.

(** ** The first data packet out of order *)

Lemma receive_step_discarded (discard_seq : option Z) (st st' : receiver) (ev : recv) :
  receive_step discard_seq st ev = (Discarded, st') -> st' = disarmed st.
Proof.
  rewrite receive_step_eval. unfold handler.
  destruct ev as [data | ]; [ | discriminate].
  destruct (extract_packet data) as [[[[[sq ak] fl] rw] pl] | ex]; [ | discriminate].
  destruct (truthy (Z.land fl fin_flag)); [discriminate | ].
  destruct (configured discard_seq && is_target discard_seq sq && discard_once st).
  - intros H. injection H as <-. reflexivity.
  - destruct (sq =? expected_seq st); [discriminate | ].
    destruct (s_timestamp st); discriminate.
Qed.

(** After passes that all took the discard branch, the state is the initial
    one, up to the discard flag. *)
Lemma discards_keep_state (discard_seq : option Z) (inbox : list recv) :
  forall st pre s post,
    fst (receive_loop discard_seq inbox st) = pre ++ s :: post ->
    Forall (fun s' => taken s' = Discarded) pre ->
    before s = st \/ before s = disarmed st.
Proof.
  induction inbox as [ | ev rest IH]; intros st pre s post H Hpre.
  - destruct pre; discriminate H.
  - cbn [receive_loop] in H.
    destruct (receive_step discard_seq st ev) as [b st'] eqn:Hstep.
    destruct (leaves_loop b) eqn:Hl.
    + cbn [fst] in H. destruct pre as [ | s0 pre].
      * injection H as <-. left. reflexivity.
      * injection H as _ H. destruct pre; discriminate H.
    + specialize (IH st').
      destruct (receive_loop discard_seq rest st') as [steps final].
      cbn [fst] in H, IH. destruct pre as [ | s0 pre].
      * injection H as <- _. left. reflexivity.
      * injection H as <- H.
        pose proof (Forall_inv Hpre) as Hb. cbn in Hb. subst b.
        apply receive_step_discarded in Hstep. subst st'.
        apply Forall_inv_tail in Hpre.
        destruct (IH pre s post H Hpre) as [-> | ->]; right; reflexivity.
Qed.

(** C10.  When every pass before it took the discard branch, a non-FIN
    packet that is not discarded and whose sequence number is not 1 ends the
    loop: the [print] of the out-of-order branch raises
    [UnboundLocalError], the handler prints it and breaks.  Nothing has been
    written to the file and no packet has been sent, neither an ACK nor a
    FIN-ACK. *)
Theorem first_packet_out_of_order
    (discard_seq : option Z) (inbox : list recv)
    (pre : list step) (s : step) (post : list step) (h : Z * Z * Z * Z) :
  fst (server_receive_files discard_seq inbox) = pre ++ s :: post ->
  Forall (fun s' => taken s' = Discarded) pre ->
  header_of (arrived s) = Some h ->
  Z.land (flags_of h) fin_flag = 0 ->
  taken s <> Discarded ->
  seq_of h <> 1 ->
  taken s = Failed UnboundLocalError /\
  post = [] /\
  f (snd (server_receive_files discard_seq inbox)) = [] /\
  sent_packets (s_log (snd (server_receive_files discard_seq inbox))) = [] /\
  s_log (snd (server_receive_files discard_seq inbox))
  = [Print (Error UnboundLocalError); Print Throughput; Print (Text "Connection Closes")].
Proof.
  intros H Hpre Hh Hfin Hnd Hseq.
  rewrite server_receive_files_steps in H.
  pose proof (receive_loop_steps discard_seq inbox _ _ _ _ H) as (Hstep & _ & Hleave).
  pose proof (discards_keep_state discard_seq inbox _ _ _ _ H Hpre) as Hbefore.
  assert (Hst : expected_seq (before s) = 1 /\ s_timestamp (before s) = false /\
                f (before s) = [] /\ s_log (before s) = []).
  { destruct Hbefore as [-> | ->]; repeat split. }
  destruct Hst as (He & Ht & Hf & Hl).
  assert (Hr : receive_step discard_seq (before s) (arrived s)
               = (Failed UnboundLocalError, s_print (before s) (Error UnboundLocalError))).
  { rewrite receive_step_eval in Hstep |- *. unfold header_of in Hh.
    destruct (arrived s) as [data | ]; [ | discriminate Hh].
    destruct (extract_packet data) as [[[[[sq ak] fl] rw] pl] | ex]; [ | discriminate Hh].
    injection Hh as <-. cbn [flags_of seq_of] in Hfin, Hseq.
    unfold truthy in Hstep |- *. rewrite Hfin in Hstep |- *.
    cbn [Z.eqb negb] in Hstep |- *.
    destruct (configured discard_seq && is_target discard_seq sq
              && discard_once (before s)).
    - injection Hstep as Hb _. contradiction.
    - rewrite He. apply Z.eqb_neq in Hseq. rewrite Hseq, Ht. reflexivity. }
  rewrite Hr in Hstep. injection Hstep as Hb Ha.
  split; [exact Hb | ].
  rewrite Hb in Hleave. destruct (Hleave eq_refl) as [Hpost Hfinal].
  split; [exact Hpost | ].
  unfold server_receive_files.
  destruct (receive_loop discard_seq inbox (receiver_init discard_seq)) as [steps final].
  cbn [fst snd] in H, Hfinal. subst steps post final.
  unfold left_loop. rewrite rev_app_distr. cbn [rev app]. rewrite Hb. cbn [leaves_loop snd].
  rewrite Ha. cbn. rewrite Hf, Hl. repeat split.
Qed.

Lemma first_packet_out_of_order_witness :
  let run := server_receive_files (Some 2)
               [Datagram data_packet_2; Datagram data_packet_3; Datagram data_packet_1] in
  taken step_refused_3 = Failed UnboundLocalError /\
  @nil step = [] /\
  f (snd run) = [] /\
  sent_packets (s_log (snd run)) = [] /\
  s_log (snd run)
  = [Print (Error UnboundLocalError); Print Throughput; Print (Text "Connection Closes")].
Proof.
  apply (first_packet_out_of_order (Some 2)
           [Datagram data_packet_2; Datagram data_packet_3; Datagram data_packet_1]
           [step_dropped_2] step_refused_3 [] (3, 0, 0, 0)).
  - reflexivity.
  - constructor; [reflexivity | constructor].
  - reflexivity.
  - reflexivity.
  - discriminate.
  - simpl. lia.
Defined.

(** * Further properties of the code *)

(** ** The codec, read the other way *)

Lemma byte_of_Z_of_byte (b : byte) : byte_of_Z (Z_of_byte b) = b.
Proof.
  pose proof (Z_of_byte_range b) as Hr. unfold byte_of_Z.
  rewrite Z.mod_small by lia. unfold Z_of_byte.
  rewrite N2Z.id, Byte.of_to_N. reflexivity.
Qed.

Lemma pack_H_unpack_H (hi lo : byte) : pack_H (unpack_H hi lo) = Ok [hi; lo].
Proof.
  pose proof (unpack_H_range hi lo) as Hr.
  pose proof (Z_of_byte_range hi) as Hh. pose proof (Z_of_byte_range lo) as Hl.
  rewrite pack_H_ok by exact Hr. rewrite unpack_H_value.
  rewrite Z.shiftr_div_pow2 by lia. change (2 ^ 8) with 256.
  replace ((Z_of_byte hi * 256 + Z_of_byte lo) / 256) with (Z_of_byte hi)
    by (apply Z.div_unique with (Z_of_byte lo); lia).
  rewrite byte_of_Z_of_byte.
  assert (E : byte_of_Z (Z_of_byte hi * 256 + Z_of_byte lo) = byte_of_Z (Z_of_byte lo)).
  { unfold byte_of_Z. rewrite Z.add_comm, Z.mod_add by lia. reflexivity. }
  rewrite E, byte_of_Z_of_byte. reflexivity.
Qed.

(** [extract_packet] raises exactly on a datagram of fewer than 8 bytes, and
    then it raises [struct.error]; otherwise the four fields are 16-bit
    numbers and the payload is everything after the first 8 bytes, however
    long. *)
Theorem extract_packet_total (packet : bytes) :
  match extract_packet packet with
  | Ok (h, data) =>
      header_size <= len packet /\
      data = slice_from header_size packet /\
      len data = len packet - header_size /\
      0 <= seq_of h <= 65535 /\ 0 <= ack_of h <= 65535 /\
      0 <= flags_of h <= 65535 /\ 0 <= window_of h <= 65535
  | Raise e => e = struct_error /\ len packet < header_size
  end.
Proof.
  destruct (Z.lt_ge_cases (len packet) header_size) as [Hlt | Hge].
  - rewrite (extract_packet_short packet Hlt). split; [reflexivity | exact Hlt].
  - destruct (extract_packet packet) as [[h data] | e] eqn:Hx.
    + apply extract_packet_fields in Hx as (Hs & Ha & Hf & Hw & Hd & Hl).
      repeat split; try tauto.
      subst data. unfold slice_from, len, header_size in *.
      rewrite length_skipn. lia.
    + exfalso. revert Hx. unfold extract_packet, slice_to, parse_header, len, header_size in *.
      change (Z.to_nat 8) with 8%nat.
      do 8 (destruct packet as [ | ? packet]; [simpl in Hge; lia | ]).
      simpl. discriminate.
Qed.

(** What [extract_packet] took apart, [create_packet] puts together again:
    the fields and the payload of a datagram give back the datagram, byte
    for byte. *)
Theorem create_packet_of_extracted
    (packet : bytes) (seq_num ack_num flags recv_window : Z) (data : bytes) :
  extract_packet packet = Ok ((seq_num, ack_num, flags, recv_window), data) ->
  create_packet seq_num ack_num flags recv_window data = Ok packet.
Proof.
  unfold extract_packet, slice_to, slice_from, parse_header, header_size.
  change (Z.to_nat 8) with 8%nat. intros H.
  do 8 (destruct packet as [ | ? packet]; [discriminate H | ]).
  assert (E : firstn 8 (b :: b0 :: b1 :: b2 :: b3 :: b4 :: b5 :: b6 :: packet)
              = [b; b0; b1; b2; b3; b4; b5; b6]) by reflexivity.
  rewrite E in H. simpl in H. injection H as <- <- <- <- <-.
  unfold create_packet, create_header, struct_pack_HHHH.
  rewrite !pack_H_unpack_H. reflexivity.
Qed.

Lemma create_packet_of_extracted_witness :
  create_packet 2 0 0 0 [x62] = Ok data_packet_2.
Proof.
  apply (create_packet_of_extracted data_packet_2 2 0 0 0 [x62]). reflexivity.
Defined.

(** ** The packets of a file *)

Lemma firstn_plus {A : Type} (a b : nat) (l : list A) :
  firstn (a + b) l = firstn a l ++ firstn b (skipn a l).
Proof.
  rewrite <- (firstn_skipn a (firstn (a + b) l)) at 1.
  rewrite firstn_firstn, skipn_firstn_comm.
  replace (Nat.min a (a + b)) with a by lia.
  replace (a + b - a)%nat with b by lia. reflexivity.
Qed.

(** The first [n] chunks of [m] bytes, one after the other, are the first
    [n * m] bytes. *)
Lemma chunks_concat {A : Type} (m : nat) (l : list A) (n : nat) :
  List.concat (map (fun k => firstn m (skipn (k * m) l)) (seq 0 n)) = firstn (n * m) l.
Proof.
  induction n as [ | n IH].
  - reflexivity.
  - rewrite seq_S, map_app, concat_app, IH. simpl.
    rewrite app_nil_r. replace (m + n * m)%nat with (n * m + m)%nat by lia.
    symmetry. apply firstn_plus.
Qed.

Lemma chunk_nat (file_data : bytes) (k : nat) :
  chunk file_data (Z.of_nat k)
  = firstn (Z.to_nat max_data) (skipn (k * Z.to_nat max_data) file_data).
Proof.
  unfold chunk, slice, max_data. f_equal.
  - f_equal. lia.
  - f_equal. lia.
Qed.

(** The packet built for chunk [i]. *)
Lemma create_packets_unfold (file_data : bytes) (n : nat) :
  forall start,
    0 <= start ->
    create_packets file_data start n =
    if (n =? 0)%nat || (start + Z.of_nat n <=? 65535)
    then Ok (map (fun k => header_bytes_of (start + Z.of_nat k + 1) 0 0 0
                           ++ chunk file_data (start + Z.of_nat k))
                 (seq 0 n))
    else Raise struct_error.
Proof.
  induction n as [ | n IH]; intros start Hs.
  - reflexivity.
  - cbn [create_packets Nat.eqb orb].
    destruct (start + Z.of_nat (S n) <=? 65535) eqn:E.
    + apply Z.leb_le in E.
      rewrite create_packet_ok by lia. cbn [bind].
      rewrite IH by lia.
      replace ((n =? 0)%nat || (start + 1 + Z.of_nat n <=? 65535)) with true
        by (symmetry; apply orb_true_iff; right; apply Z.leb_le; lia).
      cbn [bind]. cbn [seq map]. f_equal. f_equal.
      * rewrite Z.add_0_r. reflexivity.
      * rewrite <- seq_shift, map_map. apply map_ext. intros k.
        replace (start + 1 + Z.of_nat k) with (start + Z.of_nat (S k)) by lia.
        reflexivity.
    + apply Z.leb_gt in E.
      destruct (Z.le_gt_cases (start + 1) 65535) as [Hle | Hgt].
      * rewrite create_packet_ok by lia. cbn [bind].
        rewrite IH by lia.
        replace ((n =? 0)%nat || (start + 1 + Z.of_nat n <=? 65535)) with false;
          [reflexivity | ].
        symmetry. apply orb_false_iff. split.
        -- apply Nat.eqb_neq. lia.
        -- apply Z.leb_gt. lia.
      * unfold create_packet, create_header, struct_pack_HHHH.
        unfold pack_H at 1.
        replace (is_u16 (start + 1)) with false; [reflexivity | ].
        symmetry. unfold is_u16. apply andb_false_iff. right. apply Z.leb_gt. lia.
Qed.

Lemma total_chunks_bounds (file_data : bytes) :
  0 <= total_chunks_of file_data /\
  (total_chunks_of file_data - 1) * max_data < len file_data
  <= total_chunks_of file_data * max_data.
Proof.
  unfold total_chunks_of, max_data.
  assert (Hl : 0 <= len file_data) by (unfold len; lia).
  pose proof (Z.div_mod (len file_data + 992 - 1) 992 ltac:(lia)) as Hd.
  pose proof (Z.mod_pos_bound (len file_data + 992 - 1) 992 ltac:(lia)) as Hm.
  split; [apply Z.div_pos; lia | lia].
Qed.

Lemma chunk_length (file_data : bytes) (i : Z) :
  0 <= i ->
  len (chunk file_data i) = Z.max 0 (Z.min max_data (len file_data - i * max_data)).
Proof.
  intros Hi. unfold chunk, slice, len, max_data.
  rewrite length_firstn, length_skipn. lia.
Qed.

Lemma nth_error_seq_map {A : Type} (g : nat -> A) (n k : nat) :
  (k < n)%nat -> nth_error (map g (seq 0 n)) k = Some (g k).
Proof.
  intros Hk. rewrite nth_error_map.
  rewrite (nth_error_nth' (seq 0 n) 0%nat) by (rewrite length_seq; exact Hk).
  rewrite seq_nth by exact Hk. reflexivity.
Qed.

(** The list [create_packets] returns, when it returns. *)
Lemma create_packets_of_file (file_data : bytes) (packets : list bytes) :
  create_packets file_data 0 (Z.to_nat (total_chunks_of file_data)) = Ok packets ->
  total_chunks_of file_data <= 65535 /\
  packets = map (fun k => header_bytes_of (Z.of_nat k + 1) 0 0 0
                          ++ chunk file_data (Z.of_nat k))
                (seq 0 (Z.to_nat (total_chunks_of file_data))).
Proof.
  pose proof (total_chunks_bounds file_data) as [Hn _].
  rewrite create_packets_unfold by lia.
  destruct (Z.to_nat (total_chunks_of file_data) =? 0)%nat eqn:E0;
    [apply Nat.eqb_eq in E0 | destruct (0 + Z.of_nat (Z.to_nat (total_chunks_of file_data))
                                       <=? 65535) eqn:E1; [apply Z.leb_le in E1 | ]];
    cbn [orb]; intros H; try discriminate H; injection H as <-;
    (split; [lia | reflexivity]).
Qed.

(** The packets of a file.  When [create_packets] returns, it returns one
    packet per chunk; packet [i] (from 0) is a data packet with sequence
    number [i + 1], acknowledgement number, flags and window 0, whose
    payload is chunk [i] of the file, between 1 and 992 bytes long, so that
    no packet is longer than 1000 bytes; and the payloads, one after the
    other, are the file. *)
Theorem packets_of_file (file_data : bytes) (packets : list bytes) :
  create_packets file_data 0 (Z.to_nat (total_chunks_of file_data)) = Ok packets ->
  len packets = total_chunks_of file_data /\
  (forall i, 0 <= i < total_chunks_of file_data ->
     exists packet,
       nth_error packets (Z.to_nat i) = Some packet /\
       extract_packet packet = Ok ((i + 1, 0, 0, 0), chunk file_data i) /\
       1 <= len (chunk file_data i) <= max_data /\
       len packet <= header_size + max_data) /\
  List.concat (map (slice_from header_size) packets) = file_data.
Proof.
  intros H. pose proof (total_chunks_bounds file_data) as [Hn Hb].
  apply create_packets_of_file in H as [Hmax ->].
  split; [ | split].
  - unfold len. rewrite length_map, length_seq. lia.
  - intros i Hi.
    exists (header_bytes_of (i + 1) 0 0 0 ++ chunk file_data i).
    assert (Hc : 1 <= len (chunk file_data i) <= max_data).
    { rewrite chunk_length by lia. unfold max_data in *. nia. }
    split; [ | split; [ | split]].
    + rewrite nth_error_seq_map by lia. rewrite Z2Nat.id by lia. reflexivity.
    + apply extract_packet_header_bytes; lia.
    + exact Hc.
    + unfold len in *. rewrite length_app. unfold header_size. simpl List.length. lia.
  - rewrite map_map.
    rewrite (map_ext _ (fun k => firstn (Z.to_nat max_data)
                                   (skipn (k * Z.to_nat max_data) file_data))).
    + rewrite chunks_concat. apply firstn_all2.
      unfold len, max_data in *. lia.
    + intros k. rewrite <- chunk_nat. reflexivity.
Qed.

Lemma packets_of_file_witness :
  len [data_packet_1] = total_chunks_of [x61] /\
  (forall i, 0 <= i < total_chunks_of [x61] ->
     exists packet,
       nth_error [data_packet_1] (Z.to_nat i) = Some packet /\
       extract_packet packet = Ok ((i + 1, 0, 0, 0), chunk [x61] i) /\
       1 <= len (chunk [x61] i) <= max_data /\
       len packet <= header_size + max_data) /\
  List.concat (map (slice_from header_size) [data_packet_1]) = [x61].
Proof.
  apply (packets_of_file [x61] [data_packet_1]). reflexivity.
Defined.

(** ** The sender: what is sent, and when *)

Lemma sent_packets_app (l1 l2 : list output) :
  sent_packets (l1 ++ l2) = sent_packets l1 ++ sent_packets l2.
Proof. unfold sent_packets. apply flat_map_app. Qed.

Lemma skipn_nth_error {A : Type} (l : list A) :
  forall k a, nth_error l k = Some a -> skipn k l = a :: skipn (S k) l.
Proof.
  induction l as [ | x l IH]; intros [ | k] a H; simpl in H; try discriminate H.
  - injection H as ->. reflexivity.
  - apply IH in H. exact H.
Qed.

Lemma getitem_nth_error {A : Type} (l : list A) (i : Z) :
  0 <= i < len l ->
  exists a, getitem l i = Ok a /\ nth_error l (Z.to_nat i) = Some a.
Proof.
  intros Hi. unfold getitem.
  destruct (i <? 0) eqn:E; [apply Z.ltb_lt in E; lia | rewrite E].
  destruct (nth_error l (Z.to_nat i)) as [a | ] eqn:Hn.
  - exists a. split; reflexivity.
  - apply nth_error_None in Hn. unfold len in Hi. lia.
Qed.

Section SenderSends.

Variable packets : list bytes.
Variable total_chunks : Z.
Variable window_size : Z.
Hypothesis packets_length : len packets = total_chunks.

(** The sending loop, pass by pass: it sends the next [fuel] packets in
    order when that many fit the window. *)
Lemma send_window_sends (fuel : nat) :
  forall st,
    1 <= next_seq st ->
    Z.of_nat fuel
    = Z.max 0 (Z.min (base st + window_size) (total_chunks + 1) - next_seq st) ->
    exists st',
      send_window packets total_chunks window_size fuel st = (st', None) /\
      base st' = base st /\
      next_seq st' = next_seq st + Z.of_nat fuel /\
      c_timestamp st' = (if (0 <? Z.of_nat fuel) then true else c_timestamp st) /\
      sent_packets (c_log st')
      = sent_packets (c_log st)
        ++ firstn fuel (skipn (Z.to_nat (next_seq st - 1)) packets).
Proof.
  induction fuel as [ | fuel IH]; intros st Hn Hf.
  - exists st. simpl. rewrite app_nil_r, Z.add_0_r. repeat split.
  - assert (Ho : window_open total_chunks window_size st = true)
      by (apply window_open_spec; lia).
    cbn [send_window]. rewrite Ho. unfold send_next.
    destruct (getitem_nth_error packets (next_seq st - 1)) as (packet & Hg & Hnth);
      [lia | ].
    rewrite Hg.
    destruct (IH (mkSender (base st) (next_seq st + 1) true
                    (c_log st ++ [Send packet; Print (PacketSent (next_seq st) (base st))])))
      as (st' & Hs & Hb & Hn' & Ht & Hl).
    + simpl. lia.
    + simpl. lia.
    + exists st'. cbn [base next_seq c_timestamp c_log] in Hb, Hn', Ht, Hl.
      split; [exact Hs | ]. split; [exact Hb | ]. split; [lia | ].
      split.
      * rewrite Ht. destruct (0 <? Z.of_nat fuel) eqn:E; [ | reflexivity].
        replace (0 <? Z.of_nat (S fuel)) with true by (symmetry; apply Z.ltb_lt; lia).
        reflexivity.
      * rewrite Hl, sent_packets_app. cbn [sent_packets flat_map app].
        rewrite <- app_assoc. f_equal.
        rewrite (skipn_nth_error _ _ _ Hnth). cbn [firstn app]. f_equal. f_equal. f_equal.
        lia.
Qed.

(** The retransmission loop sends the packets numbered by its list, in
    order. *)
Lemma retransmit_sends (n : nat) :
  forall a st,
    1 <= a -> a + Z.of_nat n <= total_chunks + 1 ->
    exists st',
      retransmit packets (map (fun k => a + Z.of_nat k) (seq 0 n)) st = (st', None) /\
      base st' = base st /\ next_seq st' = next_seq st /\
      c_timestamp st' = c_timestamp st /\
      sent_packets (c_log st')
      = sent_packets (c_log st) ++ firstn n (skipn (Z.to_nat (a - 1)) packets).
Proof.
  induction n as [ | n IH]; intros a st Ha Hn.
  - exists st. simpl. rewrite app_nil_r. repeat split.
  - cbn [seq map retransmit]. rewrite Z.add_0_r.
    destruct (getitem_nth_error packets (a - 1)) as (packet & Hg & Hnth); [lia | ].
    rewrite Hg.
    rewrite <- seq_shift, map_map.
    rewrite (map_ext _ (fun k => (a + 1) + Z.of_nat k)) by (intros k; lia).
    destruct (IH (a + 1)
                (mkSender (base st) (next_seq st) (c_timestamp st)
                   (c_log st ++ [Send packet; Print (Retransmitting a)])))
      as (st' & Hs & Hb & Hn' & Ht & Hl); [lia | lia | ].
    exists st'. cbn [base next_seq c_timestamp c_log] in Hb, Hn', Ht, Hl.
    split; [exact Hs | ]. split; [exact Hb | ]. split; [exact Hn' | ].
    split; [exact Ht | ].
    rewrite Hl, sent_packets_app. cbn [sent_packets flat_map app].
    rewrite <- app_assoc. f_equal.
    rewrite (skipn_nth_error _ _ _ Hnth). cbn [firstn app]. f_equal. f_equal. f_equal.
    lia.
Qed.

End SenderSends.

Section SenderPhases.

Variable packets : list bytes.
Variable total_chunks : Z.
Variable window_size : Z.
Hypothesis packets_length : len packets = total_chunks.

(** The sending loop of one pass.  From a state with [next_seq >= 1] it
    never raises; it moves [next_seq] up to the end of the window,
    [min(base + window_size, total_chunks + 1)], unless it is already
    there or beyond, and sends exactly the packets numbered from the old
    [next_seq] up to the new one (excluded), in order, each once. *)
Theorem send_phase_sends (st : sender) :
  1 <= next_seq st ->
  exists st',
    send_phase packets total_chunks window_size st = (st', None) /\
    base st' = base st /\
    next_seq st'
    = Z.max (next_seq st) (Z.min (base st + window_size) (total_chunks + 1)) /\
    sent_packets (c_log st')
    = sent_packets (c_log st) ++ slice (next_seq st - 1) (next_seq st' - 1) packets.
Proof.
  intros Hn. unfold send_phase.
  destruct (send_window_sends packets total_chunks window_size packets_length
              (window_room total_chunks window_size st) st Hn)
    as (st' & Hs & Hb & Hn' & _ & Hl).
  - unfold window_room. lia.
  - exists st'. split; [exact Hs | ]. split; [exact Hb | ].
    assert (E : next_seq st'
                = Z.max (next_seq st) (Z.min (base st + window_size) (total_chunks + 1)))
      by (rewrite Hn'; unfold window_room; lia).
    split; [exact E | ].
    rewrite Hl. unfold slice. f_equal. f_equal.
    rewrite Hn'. lia.
Qed.

(** A timeout, in a pass of the loop that has sent something before: the
    handler sends again exactly the outstanding packets, those numbered
    from [base] to [next_seq - 1], in order, and touches neither [base] nor
    [next_seq]. *)
Theorem timeout_resends_window (st : sender) :
  c_timestamp st = true ->
  1 <= base st <= total_chunks ->
  next_seq st <= total_chunks + 1 ->
  exists st',
    receive_phase packets st Timeout = (st', None) /\
    base st' = base st /\ next_seq st' = next_seq st /\
    sent_packets (c_log st')
    = sent_packets (c_log st) ++ slice (base st - 1) (next_seq st - 1) packets.
Proof.
  intros Ht Hb Hn. unfold receive_phase. rewrite Ht.
  cbn [log_line base next_seq]. unfold range.
  destruct (retransmit_sends packets total_chunks packets_length
              (Z.to_nat (next_seq st - base st)) (base st) (log_line st RTO))
    as (st' & Hs & Hb' & Hn' & _ & Hl); [lia | lia | ].
  exists st'. split; [exact Hs | ]. split; [exact Hb' | ]. split; [exact Hn' | ].
  rewrite Hl. unfold log_line. cbn [c_log]. rewrite sent_packets_print.
  unfold slice. f_equal. f_equal. lia.
Qed.

End SenderPhases.

Lemma send_phase_sends_witness :
  exists st',
    send_phase [data_packet_1; data_packet_2; data_packet_3] 3 2 sender_init = (st', None) /\
    base st' = base sender_init /\
    next_seq st' = Z.max (next_seq sender_init) (Z.min (base sender_init + 2) (3 + 1)) /\
    sent_packets (c_log st')
    = sent_packets (c_log sender_init)
      ++ slice (next_seq sender_init - 1) (next_seq st' - 1)
           [data_packet_1; data_packet_2; data_packet_3].
Proof.
  apply (send_phase_sends [data_packet_1; data_packet_2; data_packet_3] 3 2).
  - reflexivity.
  - simpl. lia.
Defined.

Lemma timeout_resends_window_witness :
  exists st',
    receive_phase [data_packet_1; data_packet_2; data_packet_3]
      (mkSender 2 4 true []) Timeout = (st', None) /\
    base st' = 2 /\ next_seq st' = 4 /\
    sent_packets (c_log st')
    = [] ++ slice (2 - 1) (4 - 1) [data_packet_1; data_packet_2; data_packet_3].
Proof.
  apply (timeout_resends_window [data_packet_1; data_packet_2; data_packet_3] 3
           eq_refl (mkSender 2 4 true [])).
  - reflexivity.
  - simpl. lia.
  - simpl. lia.
Defined.

Example timeout_resends_2_and_3 :
  sent_packets (c_log (fst (receive_phase [data_packet_1; data_packet_2; data_packet_3]
                              (mkSender 2 4 true []) Timeout)))
  = [data_packet_2; data_packet_3].
Proof. reflexivity. Qed.

(** ** The sender: whole runs *)

Lemma getitem_In {A : Type} (l : list A) (i : Z) (a : A) :
  getitem l i = Ok a -> In a l.
Proof.
  unfold getitem.
  destruct ((if i <? 0 then i + len l else i) <? 0); [discriminate | ].
  destruct (nth_error l (Z.to_nat (if i <? 0 then i + len l else i))) as [x | ] eqn:E;
    [ | discriminate].
  intros H. injection H as <-. eapply nth_error_In. exact E.
Qed.

Section SenderInvariants.

Variable packets : list bytes.
Variable total_chunks : Z.
Variable window_size : Z.

Local Abbreviation run_from := (sender_loop packets total_chunks window_size).

(** A property kept by the sending loop and by the [try] statement holds in
    every state a run goes through. *)
Lemma sender_loop_invariant (P : sender -> Prop) (Q : sender -> recv -> Prop) :
  (forall st st' e,
      P st -> send_phase packets total_chunks window_size st = (st', e) -> P st') ->
  (forall st st' ev e,
      P st -> Q st ev -> receive_phase packets st ev = (st', e) -> P st') ->
  forall inbox st,
    P st ->
    Forall (fun p => Q (after_send p) (received p)) (fst (fst (run_from inbox st))) ->
    Forall P (visited (run_from inbox st)).
Proof.
  intros Hsend Hrecv. induction inbox as [ | ev rest IH]; intros st Hp Hq;
    rewrite sender_loop_unfold in Hq |- *.
  - destruct (base st <=? total_chunks).
    + destruct (send_phase packets total_chunks window_size st) as [st1 [e | ]] eqn:Hs;
        simpl; (constructor; [exact (Hsend _ _ _ Hp Hs) | constructor]).
    + simpl. constructor; [exact Hp | constructor].
  - destruct (base st <=? total_chunks).
    + destruct (send_phase packets total_chunks window_size st) as [st1 [e | ]] eqn:Hs;
        pose proof (Hsend _ _ _ Hp Hs) as Hp1.
      * simpl. constructor; [exact Hp1 | constructor].
      * destruct (receive_phase packets st1 ev) as [st2 [e | ]] eqn:Hr.
        -- simpl in Hq |- *. apply Forall_inv in Hq. simpl in Hq.
           constructor; [exact Hp | ]. constructor; [exact Hp1 | ].
           constructor; [exact (Hrecv _ _ _ _ Hp1 Hq Hr) | constructor].
        -- specialize (IH st2).
           destruct (run_from rest st2) as [[passes final] how].
           change (visited (mkPass st st1 ev :: passes, final, how))
             with (st :: st1 :: visited (passes, final, how)).
           simpl in Hq. pose proof (Forall_inv Hq) as Hq1. simpl in Hq1.
           apply Forall_inv_tail in Hq.
           constructor; [exact Hp | ]. constructor; [exact Hp1 | ].
           apply IH; [exact (Hrecv _ _ _ _ Hp1 Hq1 Hr) | exact Hq].
    + simpl. constructor; [exact Hp | constructor].
Qed.

(** The state in which a run ends is the last one it went through. *)
Lemma visited_final (run : list pass * sender * ending) :
  In (snd (fst run)) (visited run).
Proof.
  destruct run as [[passes final] how]. simpl. apply in_or_app. right. left. reflexivity.
Qed.

(** The outcomes of [recvfrom] a run handled are among those it was given. *)
Lemma passes_received (R : recv -> Prop) (inbox : list recv) :
  forall st,
    Forall R inbox ->
    Forall (fun p => R (received p)) (fst (fst (run_from inbox st))).
Proof.
  induction inbox as [ | ev rest IH]; intros st Hall; rewrite sender_loop_unfold.
  - destruct (base st <=? total_chunks);
      [destruct (send_phase packets total_chunks window_size st) as [st1 [e | ]] | ];
      constructor.
  - destruct (base st <=? total_chunks); [ | constructor].
    destruct (send_phase packets total_chunks window_size st) as [st1 [e | ]];
      [constructor | ].
    destruct (receive_phase packets st1 ev) as [st2 [e | ]].
    + simpl. constructor; [exact (Forall_inv Hall) | constructor].
    + specialize (IH st2 (Forall_inv_tail Hall)).
      destruct (run_from rest st2) as [[passes final] how].
      simpl in IH |- *. constructor; [exact (Forall_inv Hall) | exact IH].
Qed.

(** A run that ends because the loop condition is false ends with [base]
    above [total_chunks]. *)
Lemma sender_loop_finished (inbox : list recv) :
  forall st passes final rest,
    run_from inbox st = (passes, final, Finished rest) ->
    total_chunks < base final.
Proof.
  induction inbox as [ | ev rest' IH]; intros st passes final rest;
    rewrite sender_loop_unfold.
  - destruct (base st <=? total_chunks) eqn:Hg.
    + destruct (send_phase packets total_chunks window_size st) as [st1 [e | ]];
        discriminate.
    + intros H. injection H as _ <- _. apply Z.leb_gt in Hg. exact Hg.
  - destruct (base st <=? total_chunks) eqn:Hg.
    + destruct (send_phase packets total_chunks window_size st) as [st1 [e | ]];
        [discriminate | ].
      destruct (receive_phase packets st1 ev) as [st2 [e | ]]; [discriminate | ].
      specialize (IH st2).
      destruct (run_from rest' st2) as [[passes' final'] how'].
      intros H. injection H as _ <- ->. eapply IH. reflexivity.
    + intros H. injection H as _ <- _. apply Z.leb_gt in Hg. exact Hg.
Qed.

(** What the sending loop and the [try] statement add to the log. *)
Lemma send_window_log (fuel : nat) :
  forall st st' e,
    send_window packets total_chunks window_size fuel st = (st', e) ->
    exists added,
      c_log st' = c_log st ++ added /\ Forall (fun p => In p packets) (sent_packets added).
Proof.
  induction fuel as [ | fuel IH]; intros st st' e H; simpl in H.
  - injection H as <- <-. exists []. rewrite app_nil_r. split; [reflexivity | constructor].
  - destruct (window_open total_chunks window_size st).
    + unfold send_next in H.
      destruct (getitem packets (next_seq st - 1)) as [packet | ex] eqn:Hg.
      * apply getitem_In in Hg.
        apply IH in H as (added & Hl & Hin). cbn [c_log] in Hl.
        exists ([Send packet; Print (PacketSent (next_seq st) (base st))] ++ added).
        split; [rewrite Hl, app_assoc; reflexivity | ].
        rewrite sent_packets_app. apply Forall_app. split; [ | exact Hin].
        simpl. constructor; [exact Hg | constructor].
      * injection H as <- <-. exists []. rewrite app_nil_r.
        split; [reflexivity | constructor].
    + injection H as <- <-. exists []. rewrite app_nil_r.
      split; [reflexivity | constructor].
Qed.

Lemma retransmit_log (todo : list Z) :
  forall st st' e,
    retransmit packets todo st = (st', e) ->
    exists added,
      c_log st' = c_log st ++ added /\ Forall (fun p => In p packets) (sent_packets added).
Proof.
  induction todo as [ | i todo IH]; intros st st' e H; simpl in H.
  - injection H as <- <-. exists []. rewrite app_nil_r. split; [reflexivity | constructor].
  - destruct (getitem packets (i - 1)) as [packet | ex] eqn:Hg.
    + apply getitem_In in Hg.
      apply IH in H as (added & Hl & Hin). cbn [c_log] in Hl.
      exists ([Send packet; Print (Retransmitting i)] ++ added).
      split; [rewrite Hl, app_assoc; reflexivity | ].
      rewrite sent_packets_app. apply Forall_app. split; [ | exact Hin].
      simpl. constructor; [exact Hg | constructor].
    + injection H as <- <-. exists []. rewrite app_nil_r.
      split; [reflexivity | constructor].
Qed.

Lemma receive_phase_log (st st' : sender) (ev : recv) (e : option exn) :
  receive_phase packets st ev = (st', e) ->
  exists added,
    c_log st' = c_log st ++ added /\ Forall (fun p => In p packets) (sent_packets added) /\
    (ev <> Timeout -> sent_packets added = []).
Proof.
  unfold receive_phase. destruct ev as [data | ].
  - assert (Hnone : exists added, c_log st = c_log st ++ added /\
                      Forall (fun p => In p packets) (sent_packets added) /\
                      (Datagram data <> Timeout -> sent_packets added = [])).
    { exists []. rewrite app_nil_r. split; [reflexivity | ].
      split; [constructor | reflexivity]. }
    assert (Hline : forall l, exists added,
                      c_log st ++ [Print l] = c_log st ++ added /\
                      Forall (fun p => In p packets) (sent_packets added) /\
                      (Datagram data <> Timeout -> sent_packets added = [])).
    { intros l. exists [Print l]. split; [reflexivity | ].
      split; [constructor | reflexivity]. }
    destruct (extract_packet data) as [[[[[sq ak] fl] rw] pl] | ex].
    + destruct (truthy (Z.land fl ack_flag)).
      * destruct (c_timestamp st).
        -- cbn [log_line base next_seq c_timestamp c_log].
           destruct (base st <=? ak); intros H; injection H as <- _; apply Hline.
        -- intros H; injection H as <- _. exact Hnone.
      * intros H; injection H as <- _. exact Hnone.
    + intros H; injection H as <- _. exact Hnone.
  - destruct (c_timestamp st).
    + intros H. apply retransmit_log in H as (added & Hl & Hin).
      unfold log_line in Hl. cbn [c_log] in Hl.
      exists ([Print RTO] ++ added). split; [rewrite Hl, app_assoc; reflexivity | ].
      split; [ | intros Hneq; contradiction].
      rewrite sent_packets_app. simpl. exact Hin.
    + intros H; injection H as <- _. exists []. rewrite app_nil_r.
      split; [reflexivity | ]. split; [constructor | reflexivity].
Qed.

End SenderInvariants.

Section SenderRunTheorems.

Variable packets : list bytes.
Variable total_chunks : Z.
Variable window_size : Z.

Local Abbreviation run_from := (sender_loop packets total_chunks window_size).

(** Whatever arrives, the sender loop sends nothing but packets of the
    file: no ACK, no FIN, no altered packet. *)
Theorem only_file_packets_sent (inbox : list recv) :
  Forall (fun p => In p packets)
         (sent_packets (c_log (snd (fst (run_from inbox sender_init))))).
Proof.
  pose proof (sender_loop_invariant packets total_chunks window_size
                (fun st => Forall (fun p => In p packets) (sent_packets (c_log st)))
                (fun _ _ => True)) as Hinv.
  assert (Hall : Forall (fun st => Forall (fun p => In p packets) (sent_packets (c_log st)))
                        (visited (run_from inbox sender_init))).
  { apply Hinv.
    - intros st st' e Hp Hs. apply send_window_log in Hs as (added & -> & Hin).
      rewrite sent_packets_app. apply Forall_app. split; assumption.
    - intros st st' ev e Hp _ Hr. apply receive_phase_log in Hr as (added & -> & Hin & _).
      rewrite sent_packets_app. apply Forall_app. split; assumption.
    - simpl. constructor.
    - apply Forall_forall. intros p _. exact I. }
  rewrite Forall_forall in Hall. apply Hall. apply visited_final.
Qed.

Hypothesis packets_length : len packets = total_chunks.

(** Without a timeout nothing is sent twice: along a run in which no
    [recvfrom] times out, the packets sent are packets [1 .. next_seq - 1],
    in order, each exactly once. *)
Theorem no_timeout_no_retransmission (inbox : list recv) :
  no_timeout inbox ->
  sent_packets (c_log (snd (fst (run_from inbox sender_init))))
  = slice 0 (next_seq (snd (fst (run_from inbox sender_init))) - 1) packets.
Proof.
  intros Hnt.
  pose proof (sender_loop_invariant packets total_chunks window_size
                (fun st => 1 <= next_seq st /\
                           sent_packets (c_log st)
                           = firstn (Z.to_nat (next_seq st - 1)) packets)
                (fun _ ev => ev <> Timeout)) as Hinv.
  cbv beta in Hinv.
  assert (Hall : Forall (fun st => 1 <= next_seq st /\
                                   sent_packets (c_log st)
                                   = firstn (Z.to_nat (next_seq st - 1)) packets)
                        (visited (run_from inbox sender_init))).
  { apply Hinv.
    - intros st st' e [Hn Hl] Hs. unfold send_phase in Hs.
      destruct (send_window_sends packets total_chunks window_size packets_length
                  (window_room total_chunks window_size st) st Hn)
        as (st1 & Hs1 & _ & Hn1 & _ & Hl1); [unfold window_room; lia | ].
      rewrite Hs1 in Hs. injection Hs as <- _.
      split; [lia | ].
      rewrite Hl1, Hl, Hn1.
      replace (Z.to_nat (next_seq st + Z.of_nat (window_room total_chunks window_size st) - 1))
        with (Z.to_nat (next_seq st - 1) + window_room total_chunks window_size st)%nat
        by lia.
      symmetry. apply firstn_plus.
    - intros st st' ev e [Hn Hl] Hev Hr.
      pose proof (receive_phase_facts _ _ _ _ _ Hr) as (_ & Hn' & _).
      apply receive_phase_log in Hr as (added & Hlog & _ & Hnone).
      rewrite Hn', Hlog, sent_packets_app, (Hnone Hev), app_nil_r.
      split; [exact Hn | exact Hl].
    - simpl. split; [lia | reflexivity].
    - apply (passes_received packets total_chunks window_size
               (fun ev => ev <> Timeout)). exact Hnt. }
  rewrite Forall_forall in Hall.
  destruct (Hall _ (visited_final (run_from inbox sender_init))) as [_ Hl].
  rewrite Hl. unfold slice. rewrite Z.sub_0_r. reflexivity.
Qed.

(** When the loop ends normally after a run in which every
    acknowledgement was for a packet already sent, the whole file has been
    sent: [base] and [next_seq] are both [total_chunks + 1] and every packet
    of the file is among those sent. *)
Theorem transfer_completes (inbox : list recv) (rest : list recv) :
  0 <= window_size ->
  acks_in_flight (fst (fst (run_from inbox sender_init))) ->
  snd (run_from inbox sender_init) = Finished rest ->
  base (snd (fst (run_from inbox sender_init))) = total_chunks + 1 /\
  next_seq (snd (fst (run_from inbox sender_init))) = total_chunks + 1 /\
  incl packets (sent_packets (c_log (snd (fst (run_from inbox sender_init))))).
Proof.
  intros Hw Ha Hfin.
  assert (Htotal : 0 <= total_chunks) by (unfold len in packets_length; lia).
  pose proof (sender_loop_invariant packets total_chunks window_size
                (fun st => window_inv window_size st /\
                           1 <= next_seq st <= total_chunks + 1 /\
                           incl (firstn (Z.to_nat (next_seq st - 1)) packets)
                                (sent_packets (c_log st)))
                (fun st ev => forall k, acked ev = Some k -> k < next_seq st)) as Hinv.
  cbv beta in Hinv.
  assert (Hall : Forall (fun st => window_inv window_size st /\
                                   1 <= next_seq st <= total_chunks + 1 /\
                                   incl (firstn (Z.to_nat (next_seq st - 1)) packets)
                                        (sent_packets (c_log st)))
                        (visited (run_from inbox sender_init))).
  { apply Hinv.
    - intros st st' e (Hi & Hn & Hl) Hs.
      pose proof (send_window_facts _ _ _ _ _ _ _ Hs) as (_ & _ & _ & Hi').
      unfold send_phase in Hs.
      destruct (send_window_sends packets total_chunks window_size packets_length
                  (window_room total_chunks window_size st) st (proj1 Hn))
        as (st1 & Hs1 & _ & Hn1 & _ & Hl1); [unfold window_room; lia | ].
      rewrite Hs1 in Hs. injection Hs as <- _.
      split; [exact (Hi' Hi) | ]. split; [unfold window_room in Hn1; lia | ].
      rewrite Hl1, Hn1.
      replace (Z.to_nat (next_seq st + Z.of_nat (window_room total_chunks window_size st) - 1))
        with (Z.to_nat (next_seq st - 1) + window_room total_chunks window_size st)%nat
        by lia.
      rewrite firstn_plus. apply incl_app.
      + apply incl_appl. exact Hl.
      + apply incl_appr. apply incl_refl.
    - intros st st' ev e (Hi & Hn & Hl) Hq Hr.
      pose proof (receive_phase_window_inv _ _ _ _ _ _ Hr Hi Hq) as Hi'.
      pose proof (receive_phase_facts _ _ _ _ _ Hr) as (_ & Hn' & _).
      apply receive_phase_log in Hr as (added & Hlog & _).
      split; [exact Hi' | ]. rewrite Hn', Hlog, sent_packets_app.
      split; [exact Hn | ]. apply incl_appl. exact Hl.
    - unfold window_inv, sender_init. cbn [base next_seq c_log].
      split; [lia | ]. split; [lia | ]. simpl. apply incl_nil_l.
    - exact Ha. }
  rewrite Forall_forall in Hall.
  destruct (Hall _ (visited_final (run_from inbox sender_init))) as (Hi & Hn & Hl).
  destruct (run_from inbox sender_init) as [[passes final] how] eqn:Hrun.
  cbn [fst snd] in *. subst how.
  apply sender_loop_finished in Hrun. unfold window_inv in Hi.
  assert (En : next_seq final = total_chunks + 1) by lia.
  split; [lia | ]. split; [exact En | ].
  rewrite En in Hl.
  rewrite firstn_all2 in Hl; [exact Hl | ]. unfold len in packets_length. lia.
Qed.

End SenderRunTheorems.

Lemma no_timeout_no_retransmission_witness :
  sent_packets (c_log (snd (fst (sender_loop [data_packet_1; data_packet_2] 2 1
                                   [Datagram ack_packet_1; Datagram ack_packet_2]
                                   sender_init))))
  = slice 0 (next_seq (snd (fst (sender_loop [data_packet_1; data_packet_2] 2 1
                                   [Datagram ack_packet_1; Datagram ack_packet_2]
                                   sender_init))) - 1)
      [data_packet_1; data_packet_2].
Proof.
  apply (no_timeout_no_retransmission [data_packet_1; data_packet_2] 2 1 eq_refl
           [Datagram ack_packet_1; Datagram ack_packet_2]).
  repeat constructor; discriminate.
Defined.

Lemma transfer_completes_witness :
  base (snd (fst (sender_loop [data_packet_1; data_packet_2] 2 1
                    [Timeout; Datagram ack_packet_1; Datagram ack_packet_2] sender_init)))
  = 2 + 1 /\
  next_seq (snd (fst (sender_loop [data_packet_1; data_packet_2] 2 1
                        [Timeout; Datagram ack_packet_1; Datagram ack_packet_2] sender_init)))
  = 2 + 1 /\
  incl [data_packet_1; data_packet_2]
       (sent_packets
          (c_log (snd (fst (sender_loop [data_packet_1; data_packet_2] 2 1
                              [Timeout; Datagram ack_packet_1; Datagram ack_packet_2]
                              sender_init))))).
Proof.
  apply (transfer_completes [data_packet_1; data_packet_2] 2 1 eq_refl
           [Timeout; Datagram ack_packet_1; Datagram ack_packet_2] []).
  - lia.
  - vm_compute. repeat constructor; intros k H; inversion H; reflexivity.
  - reflexivity.
Defined.

(** The sender believes any acknowledgement number.  With a window of at
    least one packet, a first ACK-flagged datagram whose number is
    [total_chunks] or more ends the loop at once: only the first window,
    [min(window_size, total_chunks)] packets, has been sent, and the loop is
    left as if the whole file had been delivered. *)
Theorem early_ack_ends_transfer
    (packets : list bytes) (total_chunks window_size : Z)
    (ev : recv) (k : Z) (rest : list recv) :
  len packets = total_chunks ->
  1 <= window_size -> 1 <= total_chunks ->
  acked ev = Some k -> total_chunks <= k ->
  snd (sender_loop packets total_chunks window_size (ev :: rest) sender_init)
  = Finished rest /\
  base (snd (fst (sender_loop packets total_chunks window_size (ev :: rest) sender_init)))
  = k + 1 /\
  sent_packets
    (c_log (snd (fst (sender_loop packets total_chunks window_size (ev :: rest)
                        sender_init))))
  = slice 0 (Z.min window_size total_chunks) packets.
Proof.
  intros Hlen Hw Ht Hk Hge. rewrite sender_loop_unfold.
  replace (base sender_init <=? total_chunks) with true
    by (symmetry; apply Z.leb_le; simpl; lia).
  unfold send_phase.
  destruct (send_window_sends packets total_chunks window_size Hlen
              (window_room total_chunks window_size sender_init) sender_init)
    as (st1 & Hs & Hb & Hn & Hts & Hl).
  - simpl. lia.
  - unfold window_room. lia.
  - rewrite Hs.
    assert (Hroom : Z.of_nat (window_room total_chunks window_size sender_init)
                    = Z.min window_size total_chunks)
      by (unfold window_room, sender_init; cbn [base next_seq]; lia).
    rewrite Hroom in Hts, Hn.
    replace (0 <? Z.min window_size total_chunks) with true in Hts
      by (symmetry; apply Z.ltb_lt; lia).
    cbn [base next_seq c_log sender_init] in Hb, Hn, Hl.
    rewrite (receive_phase_ack_advances packets st1 ev k Hts Hk) by lia.
    rewrite sender_loop_unfold. cbn [base].
    replace (k + 1 <=? total_chunks) with false by (symmetry; apply Z.leb_gt; lia).
    cbn [fst snd base c_log].
    split; [reflexivity | ]. split; [reflexivity | ].
    rewrite sent_packets_print, Hl. simpl sent_packets. cbn [app].
    unfold slice. rewrite Z.sub_0_r. cbn [Z.to_nat skipn].
    f_equal. lia.
Qed.

Lemma early_ack_ends_transfer_witness :
  snd (sender_loop [data_packet_1; data_packet_2] 2 1
         (Datagram ack_packet_2 :: [Timeout]) sender_init)
  = Finished [Timeout] /\
  base (snd (fst (sender_loop [data_packet_1; data_packet_2] 2 1
                    (Datagram ack_packet_2 :: [Timeout]) sender_init)))
  = 2 + 1 /\
  sent_packets
    (c_log (snd (fst (sender_loop [data_packet_1; data_packet_2] 2 1
                        (Datagram ack_packet_2 :: [Timeout]) sender_init))))
  = slice 0 (Z.min 1 2) [data_packet_1; data_packet_2].
Proof.
  apply (early_ack_ends_transfer [data_packet_1; data_packet_2] 2 1
           (Datagram ack_packet_2) 2 [Timeout]).
  - reflexivity.
  - lia.
  - lia.
  - reflexivity.
  - lia.
Defined.

(** In that run packet 2 is never sent. *)
Example early_ack_skips_packet_2 :
  sent_packets
    (c_log (snd (fst (sender_loop [data_packet_1; data_packet_2] 2 1
                        [Datagram ack_packet_2; Timeout] sender_init))))
  = [data_packet_1].
Proof. reflexivity. Qed.

(** ** [client_send_file]: the file as a whole *)

(** The log of a run begins with the line printed before the loop. *)
Lemma sender_loop_log_begins
    (packets : list bytes) (total_chunks window_size : Z) (inbox : list recv) :
  exists added,
    c_log (snd (fst (sender_loop packets total_chunks window_size inbox sender_init)))
    = Print (Text "Data Transfer:") :: added.
Proof.
  pose proof (sender_loop_invariant packets total_chunks window_size
                (fun st => exists added, c_log st = Print (Text "Data Transfer:") :: added)
                (fun _ _ => True)) as Hinv.
  cbv beta in Hinv.
  assert (Hall : Forall (fun st => exists added,
                           c_log st = Print (Text "Data Transfer:") :: added)
                        (visited (sender_loop packets total_chunks window_size inbox
                                    sender_init))).
  { apply Hinv.
    - intros st st' e [added0 Hl] Hs. apply send_window_log in Hs as (added & -> & _).
      rewrite Hl. exists (added0 ++ added). reflexivity.
    - intros st st' ev e [added0 Hl] _ Hr.
      apply receive_phase_log in Hr as (added & -> & _).
      rewrite Hl. exists (added0 ++ added). reflexivity.
    - exists []. reflexivity.
    - apply Forall_forall. intros p _. exact I. }
  rewrite Forall_forall in Hall. apply Hall. apply visited_final.
Qed.

(** A file of more than 65535 chunks, that is of more than 65535 * 992
    bytes, cannot be sent: building the packet with sequence number 65536
    raises [struct.error], and [client_send_file] ends before it has printed
    or sent anything or read any datagram.  This is the only way for it to
    end like that. *)
Theorem file_too_large (file_data : bytes) (window_size : Z) (inbox : list recv) :
  client_send_file file_data window_size inbox = ([], Raises struct_error inbox)
  <-> 65535 * max_data < len file_data.
Proof.
  pose proof (total_chunks_bounds file_data) as [Hn Hb].
  unfold client_send_file, send_file_run.
  rewrite create_packets_unfold by lia.
  destruct ((Z.to_nat (total_chunks_of file_data) =? 0)%nat
            || (0 + Z.of_nat (Z.to_nat (total_chunks_of file_data)) <=? 65535)) eqn:E.
  - cbn [bind].
    assert (Hle : total_chunks_of file_data <= 65535).
    { apply orb_true_iff in E as [E | E];
        [apply Nat.eqb_eq in E | apply Z.leb_le in E]; lia. }
    split; [ | unfold max_data in *; lia].
    destruct (sender_loop_log_begins
                (map (fun k => header_bytes_of (0 + Z.of_nat k + 1) 0 0 0
                               ++ chunk file_data (0 + Z.of_nat k))
                     (seq 0 (Z.to_nat (total_chunks_of file_data))))
                (total_chunks_of file_data) window_size inbox) as [added Hl].
    destruct (sender_loop _ _ _ inbox sender_init) as [[passes final] how].
    cbn [fst snd] in Hl. rewrite Hl.
    destruct how; discriminate.
  - cbn [bind]. split; [intros _ | reflexivity].
    apply orb_false_iff in E as [_ E]. apply Z.leb_gt in E.
    unfold max_data in *. lia.
Qed.


(** ** The receiver: what is written and what is acknowledged *)

Lemma range_nil (a b : Z) : b <= a -> range a b = [].
Proof. intros H. unfold range. replace (Z.to_nat (b - a)) with 0%nat by lia. reflexivity. Qed.

Lemma range_cons (a b : Z) : a < b -> range a b = a :: range (a + 1) b.
Proof.
  intros H. unfold range.
  replace (Z.to_nat (b - a)) with (S (Z.to_nat (b - (a + 1)))) by lia.
  cbn [seq map]. f_equal; [lia | ].
  rewrite <- seq_shift, map_map. apply map_ext. intros k. lia.
Qed.

Lemma sent_packets_send (log : list output) (packet : bytes) :
  sent_packets (log ++ [Send packet]) = sent_packets log ++ [packet].
Proof. rewrite sent_packets_app. reflexivity. Qed.

(** What one pass of the receiver loop does to the file, the counters and
    the packets sent, branch by branch. *)
Lemma receive_step_effect (discard_seq : option Z) (st : receiver) (ev : recv) :
  let st' := snd (receive_step discard_seq st ev) in
  match fst (receive_step discard_seq st ev) with
  | InOrder =>
      exists data,
        ev = Datagram data /\
        f st' = f st ++ slice_from header_size data /\
        total_received st' = total_received st + len (slice_from header_size data) /\
        expected_seq st' = expected_seq st + 1 /\
        sent_packets (s_log st') = sent_packets (s_log st) ++ [ack_bytes (expected_seq st)]
  | FinReceived =>
      f st' = f st /\ total_received st' = total_received st /\
      expected_seq st' = expected_seq st /\
      sent_packets (s_log st') = sent_packets (s_log st) ++ [fin_ack_bytes]
  | _ =>
      f st' = f st /\ total_received st' = total_received st /\
      expected_seq st' = expected_seq st /\
      sent_packets (s_log st') = sent_packets (s_log st)
  end.
Proof.
  rewrite receive_step_eval. unfold handler. destruct ev as [data | ].
  - destruct (extract_packet data) as [[[[[sq ak] fl] rw] pl] | ex] eqn:Hx.
    + apply extract_packet_fields in Hx as (_ & _ & _ & _ & Hpl & _).
      destruct (truthy (Z.land fl fin_flag)).
      * unfold s_print, s_send.
        cbn [fst snd f total_received expected_seq s_log].
        rewrite sent_packets_print, sent_packets_send, sent_packets_print.
        repeat split.
      * destruct (configured discard_seq && is_target discard_seq sq && discard_once st).
        -- cbn. repeat split.
        -- destruct (sq =? expected_seq st) eqn:Hsq.
           ++ apply Z.eqb_eq in Hsq. subst sq pl. exists data.
              cbn [fst snd f total_received expected_seq s_log].
              rewrite sent_packets_print, sent_packets_send, sent_packets_print.
              unfold ack_bytes. rewrite app_nil_r. repeat split.
           ++ destruct (s_timestamp st); unfold s_print;
                cbn [fst snd f total_received expected_seq s_log];
                rewrite sent_packets_print; repeat split.
    + unfold s_print. cbn [fst snd f total_received expected_seq s_log].
      rewrite sent_packets_print. repeat split.
  - unfold s_print. cbn [fst snd f total_received expected_seq s_log].
    rewrite sent_packets_print. repeat split.
Qed.

Lemma written_cons (s : step) (steps : list step) :
  written (s :: steps)
  = match taken s, arrived s with
    | InOrder, Datagram data => [slice_from header_size data]
    | _, _ => []
    end ++ written steps.
Proof. reflexivity. Qed.

Lemma accepted_cons (s : step) (steps : list step) :
  accepted (s :: steps)
  = (match taken s with InOrder => 1 | _ => 0 end) + accepted steps.
Proof.
  unfold accepted, len. cbn [filter].
  destruct (taken s); cbn [List.length]; lia.
Qed.

Lemma accepted_nonneg (steps : list step) : 0 <= accepted steps.
Proof. unfold accepted, len. lia. Qed.

(** Along any run of the receiver loop, from any state. *)
Lemma receive_loop_effect (discard_seq : option Z) (inbox : list recv) :
  forall st,
    f (snd (receive_loop discard_seq inbox st))
    = f st ++ List.concat (written (fst (receive_loop discard_seq inbox st))) /\
    total_received (snd (receive_loop discard_seq inbox st))
    = total_received st
      + len (List.concat (written (fst (receive_loop discard_seq inbox st)))) /\
    expected_seq (snd (receive_loop discard_seq inbox st))
    = expected_seq st + accepted (fst (receive_loop discard_seq inbox st)) /\
    sent_packets (s_log (snd (receive_loop discard_seq inbox st)))
    = sent_packets (s_log st)
      ++ map ack_bytes
           (range (expected_seq st) (expected_seq (snd (receive_loop discard_seq inbox st))))
      ++ (if fin_received (fst (receive_loop discard_seq inbox st))
          then [fin_ack_bytes] else []).
Proof.
  induction inbox as [ | ev rest IH]; intros st.
  - cbn [receive_loop fst snd]. change (accepted []) with 0.
    rewrite Z.add_0_r, range_nil by lia. cbn. rewrite !app_nil_r, Z.add_0_r.
    repeat split.
  - cbn [receive_loop].
    pose proof (receive_step_effect discard_seq st ev) as Hstep. cbn zeta in Hstep.
    destruct (receive_step discard_seq st ev) as [b st'] eqn:Es.
    cbn [fst snd] in Hstep.
    destruct (leaves_loop b) eqn:Hleave.
    + (* the loop is left: FIN or handler *)
      cbn [fst snd]. rewrite written_cons, accepted_cons. unfold fin_received.
      cbn [taken arrived existsb written flat_map]. change (accepted []) with 0.
      destruct b; try discriminate Hleave; destruct Hstep as (Hf & Ht & He & Hs);
        rewrite Hf, Ht, He, Hs, Z.add_0_r, range_nil by lia;
        cbn; rewrite ?app_nil_r, ?Z.add_0_r; repeat split.
    + specialize (IH st').
      destruct (receive_loop discard_seq rest st') as [steps final].
      cbn [fst snd] in IH |- *. destruct IH as (IHf & IHt & IHe & IHs).
      pose proof (accepted_nonneg steps) as Hacc.
      rewrite written_cons, accepted_cons. unfold fin_received in *.
      cbn [taken arrived existsb].
      destruct b; try discriminate Hleave.
      * (* discarded *)
        destruct Hstep as (Hf & Ht & He & Hs).
        rewrite IHf, IHt, IHs, IHe, Hf, Ht, He, Hs. cbn [app orb].
        repeat split.
      * (* in order *)
        destruct Hstep as (data & -> & Hf & Ht & He & Hs).
        rewrite IHf, IHt, IHs, IHe, Hf, Ht, He, Hs. cbn [app orb List.concat].
        unfold len. rewrite length_app.
        split; [rewrite <- app_assoc; reflexivity | ].
        split; [lia | ]. split; [lia | ].
        rewrite <- app_assoc. f_equal.
        rewrite (range_cons (expected_seq st)) by lia.
        cbn [map app]. reflexivity.
      * (* out of order *)
        destruct Hstep as (Hf & Ht & He & Hs).
        rewrite IHf, IHt, IHs, IHe, Hf, Ht, He, Hs. cbn [app orb].
        repeat split.
Qed.

(** The two lines [server_receive_files] prints after its loop change
    neither the file nor the counters nor the packets sent. *)
Lemma server_receive_files_final (discard_seq : option Z) (inbox : list recv) :
  let looped := snd (receive_loop discard_seq inbox (receiver_init discard_seq)) in
  let final := snd (server_receive_files discard_seq inbox) in
  f final = f looped /\ total_received final = total_received looped /\
  expected_seq final = expected_seq looped /\
  sent_packets (s_log final) = sent_packets (s_log looped).
Proof.
  unfold server_receive_files.
  destruct (receive_loop discard_seq inbox (receiver_init discard_seq)) as [steps final].
  destruct (left_loop steps); cbn [snd s_print f total_received expected_seq s_log].
  - rewrite !sent_packets_print. repeat split.
  - repeat split.
Qed.

(** The receiver writes what it accepts and nothing else.  After any run
    of [server_receive_files], the output file is the payloads of the
    packets that took the in-order branch, in the order they arrived;
    [total_received] is its length; and [expected_seq] is one more than the
    number of packets accepted. *)
Theorem receiver_writes_accepted_payloads (discard_seq : option Z) (inbox : list recv) :
  let steps := fst (server_receive_files discard_seq inbox) in
  let final := snd (server_receive_files discard_seq inbox) in
  f final = List.concat (written steps) /\
  total_received final = len (f final) /\
  expected_seq final = 1 + accepted steps.
Proof.
  cbn zeta.
  pose proof (server_receive_files_final discard_seq inbox) as (Hf & Ht & He & _).
  pose proof (receive_loop_effect discard_seq inbox (receiver_init discard_seq))
    as (Lf & Lt & Le & _).
  rewrite server_receive_files_steps, Hf, Ht, He, Lf, Lt, Le.
  cbn [receiver_init f total_received expected_seq app]. repeat split.
Qed.

(** The receiver acknowledges each sequence number once and in order.
    After any run of [server_receive_files], the packets it has sent are
    the ACKs for 1, 2, ..., [expected_seq - 1], in this order, followed by
    one FIN-ACK when the run ended with a FIN; it sends nothing else. *)
Theorem receiver_acks_each_once (discard_seq : option Z) (inbox : list recv) :
  let steps := fst (server_receive_files discard_seq inbox) in
  let final := snd (server_receive_files discard_seq inbox) in
  sent_packets (s_log final)
  = map ack_bytes (range 1 (expected_seq final))
    ++ (if fin_received steps then [fin_ack_bytes] else []).
Proof.
  cbn zeta.
  pose proof (server_receive_files_final discard_seq inbox) as (_ & _ & He & Hs).
  pose proof (receive_loop_effect discard_seq inbox (receiver_init discard_seq))
    as (_ & _ & _ & Ls).
  rewrite server_receive_files_steps, Hs, He, Ls. reflexivity.
Qed.

(** A packet with the FIN flag ends the receiver loop in any state and
    before anything else is looked at: the FIN-ACK is sent, the payload of
    the packet is not written, its sequence number is compared neither with
    the discard target nor with [expected_seq], and no later datagram is
    processed. *)
Theorem fin_ends_receive_loop
    (discard_seq : option Z) (st : receiver) (ev : recv) (h : Z * Z * Z * Z)
    (rest : list recv) :
  header_of ev = Some h ->
  Z.land (flags_of h) fin_flag <> 0 ->
  receive_loop discard_seq (ev :: rest) st
  = ([mkStep st ev FinReceived
        (mkReceiver (expected_seq st) (total_received st) (discard_once st)
           (s_timestamp st) (f st)
           (((s_log st ++ [Print (Text "FIN packet is received")])
             ++ [Send fin_ack_bytes]) ++ [Print (Text "FIN ACK packet is sent")]))],
     mkReceiver (expected_seq st) (total_received st) (discard_once st)
       (s_timestamp st) (f st)
       (((s_log st ++ [Print (Text "FIN packet is received")])
         ++ [Send fin_ack_bytes]) ++ [Print (Text "FIN ACK packet is sent")])).
Proof.
  intros Hh Hfin. cbn [receive_loop]. rewrite receive_step_eval.
  unfold header_of in Hh. destruct ev as [data | ]; [ | discriminate Hh].
  destruct (extract_packet data) as [[[[[sq ak] fl] rw] pl] | ex]; [ | discriminate Hh].
  injection Hh as <-. cbn [flags_of] in Hfin.
  apply truthy_true in Hfin. rewrite Hfin. reflexivity.
Qed.

Lemma fin_ends_receive_loop_witness :
  receive_loop (Some 0) (Datagram [x00; x00; x00; x00; x00; x08; x00; x00; x61] :: [Timeout])
    (receiver_init (Some 0))
  = ([mkStep (receiver_init (Some 0))
        (Datagram [x00; x00; x00; x00; x00; x08; x00; x00; x61]) FinReceived
        (mkReceiver 1 0 false false []
           [Print (Text "FIN packet is received"); Send fin_ack_bytes;
            Print (Text "FIN ACK packet is sent")])],
     mkReceiver 1 0 false false []
       [Print (Text "FIN packet is received"); Send fin_ack_bytes;
        Print (Text "FIN ACK packet is sent")]).
Proof.
  apply (fin_ends_receive_loop (Some 0) (receiver_init (Some 0))
           (Datagram [x00; x00; x00; x00; x00; x08; x00; x00; x61]) (0, 0, 8, 0) [Timeout]).
  - reflexivity.
  - unfold fin_flag. simpl. lia.
Defined.

(** A header has no sequence number outside [0, 65535]. *)
Lemma hits_out_of_range (k : Z) (ev : recv) :
  k < 0 \/ 65535 < k -> hits k ev = false.
Proof.
  intros Hk. unfold hits, header_of. destruct ev as [data | ]; [ | reflexivity].
  destruct (extract_packet data) as [[h pl] | ex] eqn:Hx; [ | reflexivity].
  apply extract_packet_fields in Hx as (Hs & _).
  replace (seq_of h =? k) with false by (symmetry; apply Z.eqb_neq; lia).
  apply andb_false_r.
Qed.

(** Only a discard target between 1 and 65535 can drop a packet: with
    [discard_seq] 0, negative or above 65535, no pass of any run takes the
    discard branch. *)
Theorem discard_target_out_of_range (k : Z) (inbox : list recv) :
  k <= 0 \/ 65535 < k ->
  Forall (fun s => is_discarded (taken s) = false)
         (fst (server_receive_files (Some k) inbox)).
Proof.
  intros Hk. rewrite server_receive_files_steps.
  destruct (Z.eq_dec k 0) as [-> | Hk0].
  - apply receive_loop_unarmed. reflexivity.
  - apply Forall_forall. intros s Hin.
    apply in_split in Hin as (pre & post & Hsplit).
    pose proof (receive_loop_discard k Hk0 inbox _ _ _ _ Hsplit) as (Hd & _).
    rewrite Hd, hits_out_of_range by lia.
    rewrite andb_false_r. reflexivity.
Qed.

Lemma discard_target_out_of_range_witness :
  Forall (fun s => is_discarded (taken s) = false)
         (fst (server_receive_files (Some 70000)
                 [Datagram data_packet_1; Datagram data_packet_2])).
Proof.
  apply (discard_target_out_of_range 70000
           [Datagram data_packet_1; Datagram data_packet_2]).
  right. lia.
Defined.

(** ** The handshake *)

(** A reply to the SYN that carries a header but not both the SYN and the
    ACK flag ends the client: [client_handshake] raises [Exception], [main]
    does not handle it, and the SYN is the only packet that was sent; no
    further datagram is read. *)
Theorem client_handshake_unexpected_reply
    (window : Z) (file_data : bytes) (data : bytes) (rest : list recv)
    (h : Z * Z * Z * Z) :
  header_of (Datagram data) = Some h ->
  Z.land (flags_of h) syn_flag = 0 \/ Z.land (flags_of h) ack_flag = 0 ->
  client_handshake window (Datagram data :: rest)
  = ([Send syn_packet_bytes;
      Print (Text "Connection Establishment Phase:");
      Print (Text "SYN packet is sent")],
     Raises (Exception "Expected SYN-ACK, wrong") rest) /\
  client_main window file_data (Datagram data :: rest)
  = ([Send syn_packet_bytes;
      Print (Text "Connection Establishment Phase:");
      Print (Text "SYN packet is sent")],
     Raises (Exception "Expected SYN-ACK, wrong") rest).
Proof.
  intros Hh Hflags.
  assert (E : client_handshake window (Datagram data :: rest)
              = ([Send syn_packet_bytes;
                  Print (Text "Connection Establishment Phase:");
                  Print (Text "SYN packet is sent")],
                 Raises (Exception "Expected SYN-ACK, wrong") rest)).
  { unfold client_handshake.
    change (create_packet 1 0 syn_flag 0 []) with (Ok syn_packet_bytes).
    cbv iota beta zeta. unfold header_of in Hh.
    destruct (extract_packet data) as [[[[[sq ak] fl] rw] pl] | ex]; [ | discriminate Hh].
    injection Hh as <-. cbn [flags_of] in Hflags.
    replace (truthy (Z.land fl syn_flag) && truthy (Z.land fl ack_flag)) with false;
      [reflexivity | ].
    symmetry. apply andb_false_iff. unfold truthy.
    destruct Hflags as [-> | ->]; [left | right]; reflexivity. }
  split; [exact E | ]. unfold client_main. rewrite E. reflexivity.
Qed.

Lemma client_handshake_unexpected_reply_witness :
  client_handshake 3 (Datagram ack_packet_1 :: [Timeout])
  = ([Send syn_packet_bytes;
      Print (Text "Connection Establishment Phase:");
      Print (Text "SYN packet is sent")],
     Raises (Exception "Expected SYN-ACK, wrong") [Timeout]) /\
  client_main 3 [x61] (Datagram ack_packet_1 :: [Timeout])
  = ([Send syn_packet_bytes;
      Print (Text "Connection Establishment Phase:");
      Print (Text "SYN packet is sent")],
     Raises (Exception "Expected SYN-ACK, wrong") [Timeout]).
Proof.
  apply (client_handshake_unexpected_reply 3 [x61] ack_packet_1 [Timeout] (0, 1, 2, 0)).
  - reflexivity.
  - left. reflexivity.
Defined.

Section ServerHandshakeFacts.

Variable address : Type.

Lemma sends_app (l1 l2 : list (reply address)) : sends (l1 ++ l2) = sends l1 ++ sends l2.
Proof. unfold sends. apply flat_map_app. Qed.

(** The datagrams the handshake answers or ignores: it goes on with what
    follows them, having sent the SYN-ACKs owed. *)
Lemma server_handshake_goes_on (pre : list (bytes * address)) :
  Forall (fun da => before_ack (fst da)) pre ->
  forall tail,
  exists log,
    server_handshake (pre ++ tail)
    = (log ++ fst (server_handshake tail), snd (server_handshake tail)) /\
    sends log = syn_replies pre.
Proof.
  induction pre as [ | [data addr] pre IH]; intros Hpre tail.
  - exists []. cbn [app]. split; [destruct (server_handshake tail); reflexivity | reflexivity].
  - pose proof (Forall_inv Hpre) as (h & Hh & Hcase). cbn [fst] in Hh.
    destruct (IH (Forall_inv_tail Hpre) tail) as (log & Hrun & Hsends).
    cbn [app server_handshake]. unfold syn_replies. cbn [flat_map fst snd].
    fold (syn_replies pre). rewrite Hh. unfold header_of in Hh.
    destruct (extract_packet data) as [[[[[sq ak] fl] rw] pl] | ex] eqn:Hx;
      [ | discriminate Hh].
    injection Hh as <-. cbn [flags_of seq_of] in Hcase |- *.
    apply extract_packet_fields in Hx as (Hs & _). cbn [seq_of] in Hs.
    destruct Hcase as [[Hsyn Hseq] | [Hsyn Hack]].
    + apply truthy_true in Hsyn. rewrite Hsyn.
      rewrite create_packet_ok by (unfold syn_flag, ack_flag; simpl; lia).
      rewrite Hrun, app_nil_r.
      exists (Say (Text "SYN packet is received")
                :: SendTo (syn_ack_bytes sq) addr
                :: Say (Text "SYN-ACK packet is sent") :: log).
      split; [reflexivity | ]. cbn. fold (sends log). rewrite Hsends. reflexivity.
    + unfold truthy. rewrite Hsyn, Hack. cbn [Z.eqb negb app].
      exists log. split; [exact Hrun | exact Hsends].
Qed.

(** [server_handshake] returns the address the first ACK without SYN came
    from, whatever address the SYNs came from.  Before it, every SYN has
    been answered with one SYN-ACK (sequence number 0, acknowledgement
    number [seq + 1], window 15) sent to the sender of that SYN, and
    datagrams with neither flag have been ignored; nothing else is sent. *)
Theorem server_handshake_accepts_first_ack
    (pre : list (bytes * address)) (data : bytes) (addr : address)
    (rest : list (bytes * address)) (h : Z * Z * Z * Z) :
  Forall (fun da => before_ack (fst da)) pre ->
  header_of (Datagram data) = Some h ->
  Z.land (flags_of h) syn_flag = 0 ->
  Z.land (flags_of h) ack_flag <> 0 ->
  snd (server_handshake (pre ++ (data, addr) :: rest)) = Established addr rest /\
  sends (fst (server_handshake (pre ++ (data, addr) :: rest))) = syn_replies pre.
Proof.
  intros Hpre Hh Hsyn Hack.
  destruct (server_handshake_goes_on pre Hpre ((data, addr) :: rest))
    as (log & -> & Hsends).
  cbn [fst snd server_handshake]. unfold header_of in Hh.
  destruct (extract_packet data) as [[[[[sq ak] fl] rw] pl] | ex]; [ | discriminate Hh].
  injection Hh as <-. cbn [flags_of] in Hsyn, Hack.
  apply truthy_true in Hack. unfold truthy in *. rewrite Hsyn. cbn [Z.eqb negb].
  rewrite Hack. cbn [fst snd]. split; [reflexivity | ].
  rewrite sends_app, Hsends. cbn. apply app_nil_r.
Qed.

(** Nothing in [server_handshake] is handled: a datagram of fewer than 8
    bytes, or a SYN with sequence number 65535 (whose SYN-ACK would carry
    65536), ends the listening server with [struct.error], from whatever
    address it comes, and [main] never reaches [server_receive_files]. *)
Theorem server_handshake_aborts
    (discard : option Z) (pre : list (bytes * address)) (data : bytes) (addr : address)
    (rest : list (bytes * address)) :
  Forall (fun da => before_ack (fst da)) pre ->
  len data < header_size \/
  (exists h, header_of (Datagram data) = Some h /\
             Z.land (flags_of h) syn_flag <> 0 /\ seq_of h = 65535) ->
  snd (server_handshake (pre ++ (data, addr) :: rest)) = Aborted struct_error rest /\
  snd (server_main discard (pre ++ (data, addr) :: rest)) = NoSession (Some struct_error).
Proof.
  intros Hpre Hbad.
  assert (E : snd (server_handshake (pre ++ (data, addr) :: rest))
              = Aborted struct_error rest).
  { destruct (server_handshake_goes_on pre Hpre ((data, addr) :: rest)) as (log & -> & _).
    cbn [fst snd server_handshake].
    destruct Hbad as [Hshort | (h & Hh & Hsyn & Hseq)].
    - rewrite (extract_packet_short data Hshort). reflexivity.
    - unfold header_of in Hh.
      destruct (extract_packet data) as [[[[[sq ak] fl] rw] pl] | ex]; [ | discriminate Hh].
      injection Hh as <-. cbn [flags_of seq_of] in Hsyn, Hseq.
      apply truthy_true in Hsyn. rewrite Hsyn. subst sq. reflexivity. }
  split; [exact E | ]. unfold server_main.
  destruct (server_handshake (pre ++ (data, addr) :: rest)) as [log how].
  cbn [snd] in E. subst how. reflexivity.
Qed.

End ServerHandshakeFacts.

Lemma server_handshake_accepts_first_ack_witness :
  snd (server_handshake ([(syn_packet_bytes, 7%nat)] ++ (handshake_ack_bytes 0, 9%nat) :: []))
  = Established 9%nat [] /\
  sends (fst (server_handshake
                ([(syn_packet_bytes, 7%nat)] ++ (handshake_ack_bytes 0, 9%nat) :: [])))
  = syn_replies [(syn_packet_bytes, 7%nat)].
Proof.
  apply (server_handshake_accepts_first_ack nat [(syn_packet_bytes, 7%nat)]
           (handshake_ack_bytes 0) 9%nat [] (2, 1, 2, 0)).
  - constructor; [ | constructor]. exists (1, 0, 4, 0). split; [reflexivity | ].
    left. split; [discriminate | reflexivity].
  - reflexivity.
  - reflexivity.
  - discriminate.
Defined.

Lemma server_handshake_aborts_witness :
  snd (server_handshake ([(syn_packet_bytes, 7%nat)] ++ ([x00; x01], 9%nat) :: []))
  = Aborted struct_error [] /\
  snd (server_main None ([(syn_packet_bytes, 7%nat)] ++ ([x00; x01], 9%nat) :: []))
  = NoSession (Some struct_error).
Proof.
  apply (server_handshake_aborts nat None [(syn_packet_bytes, 7%nat)] [x00; x01] 9%nat []).
  - constructor; [ | constructor]. exists (1, 0, 4, 0). split; [reflexivity | ].
    left. split; [discriminate | reflexivity].
  - left. reflexivity.
Defined.

(** ** The teardown *)

(** [client_teardown] is a best-effort close: it sends one FIN, makes one
    [recvfrom], and returns on a timeout and on any reply that carries a
    header, whatever its flags; a reply of fewer than 8 bytes is the only
    thing that makes it raise. *)
Theorem client_teardown_best_effort (ev : recv) (rest : list recv) :
  sent_packets (fst (client_teardown (ev :: rest))) = [fin_packet_bytes] /\
  snd (client_teardown (ev :: rest))
  = match ev with
    | Timeout => Returns tt rest
    | Datagram data =>
        if len data <? header_size then Raises struct_error rest else Returns tt rest
    end.
Proof.
  unfold client_teardown.
  change (create_packet 0 0 fin_flag 0 []) with (Ok fin_packet_bytes).
  cbv iota beta zeta. destruct ev as [data | ]; [ | split; reflexivity].
  destruct (len data <? header_size) eqn:E.
  - apply Z.ltb_lt in E. rewrite (extract_packet_short data E). split; reflexivity.
  - apply Z.ltb_ge in E.
    pose proof (extract_packet_short data) as Hshort.
    destruct (extract_packet data) as [[[[[sq ak] fl] rw] pl] | ex] eqn:Hx.
    + destruct (truthy (Z.land fl ack_flag) && truthy (Z.land fl fin_flag));
        split; reflexivity.
    + exfalso. revert Hx. unfold extract_packet, slice_to, parse_header, len, header_size in *.
      change (Z.to_nat 8) with 8%nat.
      do 8 (destruct data as [ | ? data]; [simpl in E; lia | ]).
      simpl. discriminate.
Qed.

(** ** A session without loss *)


Lemma chunks_of_file (file_data : bytes) :
  List.concat (map (fun k => chunk file_data (Z.of_nat k))
                   (seq 0 (Z.to_nat (total_chunks_of file_data))))
  = file_data.
Proof.
  pose proof (total_chunks_bounds file_data) as [Hn Hb].
  rewrite (map_ext _ (fun k => firstn (Z.to_nat max_data)
                                 (skipn (k * Z.to_nat max_data) file_data)))
    by (intros k; apply chunk_nat).
  rewrite chunks_concat. apply firstn_all2. unfold len, max_data in *. lia.
Qed.

Section LosslessSender.

Variable packets : list bytes.
Variable total_chunks : Z.
Variable window_size : Z.
Hypothesis packets_length : len packets = total_chunks.
Hypothesis window_positive : 1 <= window_size.
Hypothesis total_fits : total_chunks <= 65535.


End LosslessSender.

Lemma map_range {A : Type} (g : Z -> A) (n : nat) :
  map (fun k => g (Z.of_nat k)) (seq 0 n) = map g (range 0 (Z.of_nat n)).
Proof.
  unfold range. rewrite map_map, Z.sub_0_r, Nat2Z.id. reflexivity.
Qed.

(** The packets of a file, by chunk number. *)
Lemma create_packets_range (file_data : bytes) (packets : list bytes) :
  create_packets file_data 0 (Z.to_nat (total_chunks_of file_data)) = Ok packets ->
  0 <= total_chunks_of file_data <= 65535 /\
  packets = map (data_packet file_data) (range 0 (total_chunks_of file_data)).
Proof.
  intros H. pose proof (total_chunks_bounds file_data) as [Hn _].
  apply create_packets_of_file in H as [Hmax ->]. split; [lia | ].
  rewrite (map_range (data_packet file_data)), Z2Nat.id by lia. reflexivity.
Qed.

(** Fed with the packets of a file in order, the receiver accepts them
    all. *)
Lemma receive_in_order (discard_seq : option Z) (file_data : bytes) (m : nat) :
  forall a b st tail,
    Z.of_nat m = b - a ->
    configured discard_seq && discard_once st = false ->
    0 <= a -> b <= 65535 ->
    expected_seq st = a + 1 ->
    exists st',
      snd (receive_loop discard_seq
             (map (fun i => Datagram (data_packet file_data i)) (range a b) ++ tail) st)
      = snd (receive_loop discard_seq tail st') /\
      expected_seq st' = b + 1 /\
      configured discard_seq && discard_once st' = false /\
      f st' = f st ++ List.concat (map (chunk file_data) (range a b)) /\
      total_received st'
      = total_received st + len (List.concat (map (chunk file_data) (range a b))) /\
      sent_packets (s_log st')
      = sent_packets (s_log st) ++ map ack_bytes (range (a + 1) (b + 1)).
Proof.
  induction m as [ | m IH]; intros a b st tail Hm Hd Ha Hb He.
  - exists st. rewrite !range_nil by lia. cbn. rewrite !app_nil_r, !Z.add_0_r.
    repeat split; [lia | exact Hd].
  - rewrite (range_cons a b), (range_cons (a + 1) (b + 1)) by lia.
    cbn [map app receive_loop List.concat]. rewrite receive_step_eval.
    unfold data_packet at 1. rewrite extract_packet_header_bytes by lia.
    change (truthy (Z.land 0 fin_flag)) with false. cbv iota.
    replace (configured discard_seq && is_target discard_seq (a + 1) && discard_once st)
      with false
      by (destruct (configured discard_seq), (is_target discard_seq (a + 1)),
            (discard_once st); simpl in *; congruence).
    replace (a + 1 =? expected_seq st) with true
      by (symmetry; apply Z.eqb_eq; lia).
    cbn [leaves_loop].
    destruct (IH (a + 1) b
                (mkReceiver (expected_seq st + 1)
                   (total_received st + len (chunk file_data a))
                   (discard_once st) true (f st ++ chunk file_data a)
                   (((s_log st ++ [Print (PacketReceived (a + 1))])
                     ++ [Send (header_bytes_of 0 (a + 1) ack_flag 0 ++ [])])
                    ++ [Print (SendingAck (a + 1))])) tail)
      as (st' & Hrun & He' & Hd' & Hf' & Ht' & Hs');
      [lia | exact Hd | lia | lia | cbn; lia | ].
    exists st'.
    destruct (receive_loop discard_seq
                (map (fun i => Datagram (data_packet file_data i)) (range (a + 1) b) ++ tail)
                _) as [steps final].
    cbn [fst snd] in Hrun |- *.
    cbn [f total_received s_log] in Hf', Ht', Hs'.
    rewrite sent_packets_print, sent_packets_send, sent_packets_print, app_nil_r in Hs'.
    split; [exact Hrun | ]. split; [exact He' | ]. split; [exact Hd' | ].
    split; [rewrite Hf', <- app_assoc; reflexivity | ].
    split.
    + rewrite Ht'. unfold len. rewrite length_app. lia.
    + rewrite Hs', <- app_assoc. reflexivity.
Qed.

Lemma chunks_of_file_range (file_data : bytes) :
  List.concat (map (chunk file_data) (range 0 (total_chunks_of file_data))) = file_data.
Proof.
  pose proof (total_chunks_bounds file_data) as [Hn _].
  rewrite <- (Z2Nat.id (total_chunks_of file_data)) at 1 by lia.
  rewrite <- (map_range (chunk file_data)). apply chunks_of_file.
Qed.

Lemma sends_addressed {address : Type} (addr : address) (log : list output) :
  sends (map (addressed addr) log) = map (fun p => (p, addr)) (sent_packets log).
Proof.
  induction log as [ | [packet | l] log IH]; cbn.
  - reflexivity.
  - f_equal. exact IH.
  - exact IH.
Qed.



(** The server in a session without loss.  After a SYN and the ACK of the
    handshake, fed with the packets of a file in order and then a FIN, with
    no discard target, the server writes exactly the file and counts its
    bytes.  Its SYN-ACK goes to the sender of the SYN; every ACK and the
    FIN-ACK go to the address the ACK of the handshake came from, whatever
    addresses the data packets and the FIN came from. *)
Theorem server_session_without_loss
    (address : Type) (discard : option Z) (file_data : bytes) (packets : list bytes)
    (data : list (bytes * address)) (a0 a a1 : address) (rest : list (bytes * address)) :
  configured discard = false ->
  create_packets file_data 0 (Z.to_nat (total_chunks_of file_data)) = Ok packets ->
  map fst data = packets ->
  exists log steps final,
    server_main discard
      ((syn_packet_bytes, a0) :: (handshake_ack_bytes 0, a)
         :: data ++ (fin_packet_bytes, a1) :: rest)
    = (log, Session a steps final) /\
    f final = file_data /\
    total_received final = len file_data /\
    sends log
    = (syn_ack_bytes 1, a0)
        :: map (fun k => (ack_bytes k, a)) (range 1 (total_chunks_of file_data + 1))
        ++ [(fin_ack_bytes, a)].
Proof.
  intros Hd Hp Hdata.
  pose proof (create_packets_range file_data packets Hp) as [Hn Hpk].
  unfold server_main.
  change (server_handshake ((syn_packet_bytes, a0) :: (handshake_ack_bytes 0, a)
                              :: data ++ (fin_packet_bytes, a1) :: rest))
    with ([Say (Text "SYN packet is received"); SendTo (syn_ack_bytes 1) a0;
           Say (Text "SYN-ACK packet is sent"); Say (Text "ACK packet is received");
           Say (Text "Connection established")],
          Established a (data ++ (fin_packet_bytes, a1) :: rest)).
  cbv iota beta. rewrite Hd.
  rewrite map_app, <- (map_map fst Datagram), Hdata, Hpk, map_map. cbn [map fst].
  pose proof (server_receive_files_final None
                (map (fun i => Datagram (data_packet file_data i))
                     (range 0 (total_chunks_of file_data))
                 ++ Datagram fin_packet_bytes :: map (fun da => Datagram (fst da)) rest))
    as (Ff & Ft & _ & Fs).
  cbn zeta in Ff, Ft, Fs.
  destruct (receive_in_order None file_data (Z.to_nat (total_chunks_of file_data))
              0 (total_chunks_of file_data) (receiver_init None)
              (Datagram fin_packet_bytes :: map (fun da => Datagram (fst da)) rest))
    as (st' & Hrun & _ & _ & Hf & Ht & Hs); [lia | reflexivity | lia | lia | reflexivity | ].
  rewrite Hrun in Ff, Ft, Fs.
  cbn [receive_loop] in Ff, Ft, Fs. rewrite receive_step_eval in Ff, Ft, Fs.
  change (extract_packet fin_packet_bytes) with (Ok ((0, 0, 8, 0), @nil byte)) in Ff, Ft, Fs.
  cbv iota beta in Ff, Ft, Fs.
  change (truthy (Z.land 8 fin_flag)) with true in Ff, Ft, Fs.
  cbn [leaves_loop snd s_print s_send f total_received s_log] in Ff, Ft, Fs.
  rewrite sent_packets_print, sent_packets_send, sent_packets_print in Fs.
  destruct (server_receive_files None _) as [steps final].
  cbn [snd] in Ff, Ft, Fs.
  exists ([Say (Text "SYN packet is received"); SendTo (syn_ack_bytes 1) a0;
           Say (Text "SYN-ACK packet is sent"); Say (Text "ACK packet is received");
           Say (Text "Connection established")]
          ++ map (addressed a) (s_log final)), steps, final.
  split; [reflexivity | ].
  rewrite chunks_of_file_range in Hf, Ht. cbn [receiver_init f total_received app] in Hf, Ht.
  split; [rewrite Ff; exact Hf | ]. split; [rewrite Ft, Ht; lia | ].
  rewrite sends_app, sends_addressed, Fs, Hs. cbn [receiver_init s_log sent_packets flat_map app sends].
  rewrite map_app, map_map. reflexivity.
Qed.

Lemma server_session_without_loss_witness :
  exists log steps final,
    server_main (Some 0)
      ((syn_packet_bytes, 5%nat) :: (handshake_ack_bytes 0, 6%nat)
         :: [(data_packet_1, 7%nat)] ++ (fin_packet_bytes, 8%nat) :: [])
    = (log, Session 6%nat steps final) /\
    f final = [x61] /\
    total_received final = len [x61] /\
    sends log
    = (syn_ack_bytes 1, 5%nat)
        :: map (fun k => (ack_bytes k, 6%nat)) (range 1 (total_chunks_of [x61] + 1))
        ++ [(fin_ack_bytes, 6%nat)].
Proof.
  apply (server_session_without_loss nat (Some 0) [x61] [data_packet_1]
           [(data_packet_1, 7%nat)] 5%nat 6%nat 8%nat []).
  - reflexivity.
  - reflexivity.
  - reflexivity.
Defined.

(** The two sides of the handshake fit together.  The server answers the
    SYN the client sends with a SYN-ACK to the client's address; on that
    SYN-ACK [client_handshake] returns the smaller of the requested window
    and 15, having sent the SYN and one ACK; and that ACK makes
    [server_handshake] return the client's address. *)
Theorem handshake_agrees
    (address : Type) (window : Z) (addr : address)
    (rest_client : list recv) (rest_server : list (bytes * address)) :
  sends (fst (server_handshake [(syn_packet_bytes, addr)])) = [(syn_ack_bytes 1, addr)] /\
  snd (client_handshake window (Datagram (syn_ack_bytes 1) :: rest_client))
  = Returns (Some (Z.min window 15)) rest_client /\
  sent_packets (fst (client_handshake window (Datagram (syn_ack_bytes 1) :: rest_client)))
  = [syn_packet_bytes; handshake_ack_bytes 0] /\
  snd (server_handshake
         ((syn_packet_bytes, addr) :: (handshake_ack_bytes 0, addr) :: rest_server))
  = Established addr rest_server.
Proof. repeat split. Qed.

(** A run with one loss, on a file of 3000 bytes (4 chunks) with a window of
    3 and [discard_seq = 2].  The receiver drops packet 2 once and ignores
    packets 3 and 4 until packet 2 comes again; the sender times out once
    and sends packets 2, 3 and 4 again. *)
Example one_loss_sender :
  let file_data := repeat x61 3000 in
  match send_file_run file_data 3
          (map Datagram [ack_bytes 1] ++ [Timeout]
           ++ map Datagram [ack_bytes 2; ack_bytes 3; ack_bytes 4]) with
  | Ok (_, final, how) =>
      how = Finished [] /\
      sent_packets (c_log final)
      = map (data_packet file_data) [0; 1; 2; 3; 1; 2; 3]
  | Raise _ => False
  end.
Proof. vm_compute. split; reflexivity. Qed.

Example one_loss_receiver :
  let file_data := repeat x61 3000 in
  let '(steps, final) :=
    server_receive_files (Some 2)
      (map (fun i => Datagram (data_packet file_data i)) [0; 1; 2; 3; 1; 2; 3]
       ++ [Datagram fin_packet_bytes]) in
  map taken steps
  = [InOrder; Discarded; OutOfOrder; OutOfOrder; InOrder; InOrder; InOrder; FinReceived] /\
  f final = file_data /\
  sent_packets (s_log final)
  = [ack_bytes 1; ack_bytes 2; ack_bytes 3; ack_bytes 4; fin_ack_bytes].
Proof. vm_compute. repeat split. Qed.
